(** * The Elastic driver of msticpy: connection arguments and parameter formatting

    A shallow embedding of [msticpy/data/drivers/elastic_driver.py].

    Python dictionaries are finite maps ([gmap string pyval]); the class
    attribute [_CONNECT_DEFAULTS] is one shared dictionary object that
    [_get_connect_args] updates in place, so it lives in the store and not in
    a constant.  Methods run in a small state-and-exception monad: what a
    method wrote before it raised stays written. *)

From Stdlib Require Import ZArith String Ascii List Lia.
From stdpp Require Import gmap strings list fin_maps pretty.

Open Scope string_scope.
Open Scope Z_scope.

(** ** Python values and strings *)

Inductive pyval : Type :=
  | VNone
  | VBool (b : bool)
  | VInt (z : Z)
  | VStr (s : string).

#[global] Instance pyval_eq_dec : EqDecision pyval.
Proof. solve_decision. Defined.

Abbreviation dict := (gmap string pyval).

(** [str(v)], which is also what an f-string placeholder [{v}] renders. *)
Definition py_str (v : pyval) : string :=
  match v with
  | VNone => "None"
  | VBool true => "True"
  | VBool false => "False"
  | VInt z => pretty z
  | VStr s => s
  end.

(** [sep.join(parts)] *)
Fixpoint join (sep : string) (parts : list string) : string :=
  match parts with
  | [] => ""
  | [p] => p
  | p :: rest => p +:+ sep +:+ join sep rest
  end.

(** The double-quote character and the one-character string holding it. *)
Definition dq_char : ascii := ascii_of_nat 34.
Definition dq : string := String dq_char "".

(** ** Module constants *)

Definition ELASTIC_CONNECT_ARGS : list (string * string) :=
  [ ("host", "(string) The host name (the default is 'localhost').");
    ("port", "(integer) The port number (the default is 8089).");
    ("use_ssl", "(bool) Use SSL for accessing the service (default True)");
    ("verify_certs", "(bool) Verify server cert (default True)");
    ("username", "(string) The username used for authentication");
    ("password", "(string) The password for specified user.") ].

Definition _ELASTIC_REQD_ARGS : list string := ["host"; "username"; "password"].

(** The value the class attribute [_CONNECT_DEFAULTS] is bound to when the
    class body is executed. *)
Definition _CONNECT_DEFAULTS : dict :=
  <["port" := VInt 9200]> (<["use_ssl" := VBool true]> (<["verify_certs" := VBool true]> ∅)).

(** ** Exceptions *)

Inductive exn : Type :=
  | MsticpyUserConfigError (args : list string) (title : string)
  | UnrecognizedArgumentError (names : gset string).

Inductive result (A : Type) : Type :=
  | Ok (a : A)
  | Raise (e : exn).
Arguments Ok {A} a.
Arguments Raise {A} e.

(** ** Objects and the store *)

(** A session of the remote client; no code path of this file creates one. *)
Record Elasticsearch : Type := { es_args : dict }.

(** The instance attributes assigned by [__init__]. *)
Record ElasticDriver : Type := mkDriver {
  service : option Elasticsearch;
  _loaded : bool;
  _connected : bool;
  _debug : pyval
}.

Record ProviderSettings : Type := { args : dict }.

Record QuerySource : Type := { qs_name : string }.

(** The store: the dictionary object bound to the class attribute
    [ElasticDriver._CONNECT_DEFAULTS] (shared by all instances and calls),
    the instance, and the lines that the [print] calls of this file have
    written.  What the exception classes display when they are constructed
    is no part of it. *)
Record state : Type := mkState {
  cls_CONNECT_DEFAULTS : dict;
  self : ElasticDriver;
  stdout : list string
}.

Definition M (A : Type) : Type := state → result A * state.

Definition ret {A} (a : A) : M A := λ st, (Ok a, st).

(** [raise E(...)]: the call ends with the exception, which is its class and
    the arguments this file constructs it with, and the store stays as the
    statements before have left it.  The exception classes are defined in
    common/exceptions, outside this file: what their constructors display is
    not recorded in [stdout], so the properties below that speak of the
    output speak of calls that return. *)
Definition raise {A} (e : exn) : M A := λ st, (Raise e, st).

Definition bind {A B} (m : M A) (k : A → M B) : M B :=
  λ st, match m st with
        | (Ok a, st') => k a st'
        | (Raise e, st') => (Raise e, st')
        end.

#[global] Instance M_ret : MRet M := @ret.
#[global] Instance M_bind : MBind M := λ A B k m, bind m k.

(** [d.update(other)] on the dictionary object of the class attribute. *)
Definition dict_update (other : dict) : M unit :=
  λ st, (Ok tt, mkState (other ∪ cls_CONNECT_DEFAULTS st) (self st) (stdout st)).

Definition dict_read : M dict := λ st, (Ok (cls_CONNECT_DEFAULTS st), st).

Definition py_print (line : string) : M unit :=
  λ st, (Ok tt, mkState (cls_CONNECT_DEFAULTS st) (self st) (stdout st ++ [line])).

(** Modelled from the spec: [check_kwargs] of common/utility is not under
    src/; the spec describes it as the shared helper that rejects
    unrecognized keyword names against an allow-list, failing with an
    unrecognized-argument error. *)
Definition check_kwargs (supplied_args : dict) (legal_args : list string) : M unit :=
  let name_errs : gset string := filter (λ name, name ∉ legal_args) (dom supplied_args) in
  if decide (name_errs = ∅) then ret tt else raise (UnrecognizedArgumentError name_errs).

(** [_get_config_settings]: the "Elastic" entry of the DataProviders
    settings, its [args], or an empty dictionary. *)
Definition _get_config_settings (data_provs : gmap string ProviderSettings) : dict :=
  match data_provs !! "Elastic" with
  | Some elastic_settings => args elastic_settings
  | None => ∅
  end.

Section Driver.

(** The order in which Python iterates over a set of strings is not fixed by
    the language; [set_iter] is that order. *)
Variable set_iter : gset string → list string.

Definition _get_connect_args (data_provs : gmap string ProviderSettings)
    (connection_str : option string) (kwargs : dict) : M dict :=
  (* cs_dict is bound to the dictionary object of the class attribute itself *)
  dict_update (_get_config_settings data_provs) ;;
  dict_update kwargs ;;
  cs_dict ← dict_read ;
  check_kwargs cs_dict (ELASTIC_CONNECT_ARGS.*1) ;;
  let missing_args : gset string := list_to_set _ELASTIC_REQD_ARGS ∖ dom cs_dict in
  if decide (missing_args ≠ ∅) then
    raise (MsticpyUserConfigError
             ([ "One or more connection parameters missing for Elastic connector";
                join ", " (set_iter missing_args);
                "Required parameters are " +:+ join ", " _ELASTIC_REQD_ARGS;
                "All parameters:" ]
              ++ map (λ '(arg, desc), arg +:+ ": " +:+ desc) ELASTIC_CONNECT_ARGS)
             "no Elastic connection parameters")
  else mret cs_dict.

Definition connect (data_provs : gmap string ProviderSettings)
    (connection_str : option string) (kwargs : dict) : M unit :=
  cs_dict ← _get_connect_args data_provs connection_str kwargs ;
  let arg_dict : dict := filter (λ kv, kv.1 ∈ ELASTIC_CONNECT_ARGS.*1) cs_dict in
  (* the session is never opened: the try block is commented out *)
  py_print "connected".

End Driver.

Definition query (query : string) (query_source : option QuerySource) (kwargs : dict)
    : M pyval :=
  mret VNone.

(** [kwargs.get(key, default)] *)
Definition dict_get (d : dict) (key : string) (default : pyval) : pyval :=
  match d !! key with Some v => v | None => default end.

(** [__init__]: the attributes the constructor assigns after the base class
    constructor has run (whatever that one assigned to them is overwritten). *)
Definition __init__ (kwargs : dict) : ElasticDriver :=
  {| service := None;
     _loaded := true;
     _connected := false;
     _debug := dict_get kwargs "debug" (VBool false) |}.

(** ** Parameter formatting *)

Definition digit_char (d : Z) : ascii := ascii_of_nat (48 + Z.to_nat d).

(** The [w] low decimal digits of [n], most significant first. *)
Fixpoint digits (w : nat) (n : Z) : string :=
  match w with
  | O => ""
  | S w' => digits w' (n / 10) +:+ String (digit_char (n mod 10)) ""
  end.

(** ["%0wd" % n] for [0 ≤ n]: padded with zeros up to [w] digits, never cut. *)
Definition fmt_0d (w : nat) (n : Z) : string :=
  if n <? 10 ^ Z.of_nat w then digits w n else pretty n.

(** [datetime.datetime]; [utcoffset] is the offset of an aware value in
    microseconds, [None] for a naive one. *)
Record datetime : Type := mkDatetime {
  year : Z; month : Z; day : Z;
  hour : Z; minute : Z; second : Z; microsecond : Z;
  utcoffset : option Z
}.

Definition is_leap (y : Z) : bool :=
  (y mod 4 =? 0) && (negb (y mod 100 =? 0) || (y mod 400 =? 0)).

Definition days_in_month (y m : Z) : Z :=
  if m =? 2 then (if is_leap y then 29 else 28)
  else if (m =? 4) || (m =? 6) || (m =? 9) || (m =? 11) then 30 else 31.

(** The values the [datetime] constructor accepts. *)
Definition valid_datetime (dt : datetime) : bool :=
  (1 <=? year dt) && (year dt <=? 9999) && (1 <=? month dt) && (month dt <=? 12)
  && (1 <=? day dt) && (day dt <=? days_in_month (year dt) (month dt))
  && (0 <=? hour dt) && (hour dt <? 24) && (0 <=? minute dt) && (minute dt <? 60)
  && (0 <=? second dt) && (second dt <? 60)
  && (0 <=? microsecond dt) && (microsecond dt <? 1000000)
  && match utcoffset dt with
     | None => true
     | Some off => (-86400000000 <? off) && (off <? 86400000000)
     end.

(** [datetime._format_time] with [timespec='auto']. *)
Definition _format_time (hh mm ss us : Z) : string :=
  fmt_0d 2 hh +:+ ":" +:+ fmt_0d 2 mm +:+ ":" +:+ fmt_0d 2 ss
  +:+ (if us =? 0 then "" else "." +:+ fmt_0d 6 us).

(** [datetime._format_offset] *)
Definition _format_offset (off : option Z) : string :=
  match off with
  | None => ""
  | Some off =>
      let sign := if off <? 0 then "-" else "+" in
      let off := Z.abs off in
      let hh := off / 3600000000 in
      let mm := (off mod 3600000000) / 60000000 in
      let ss := (off mod 3600000000) mod 60000000 in
      sign +:+ fmt_0d 2 hh +:+ ":" +:+ fmt_0d 2 mm
      +:+ (if ss =? 0 then ""
           else ":" +:+ fmt_0d 2 (ss / 1000000)
                +:+ (if ss mod 1000000 =? 0 then "" else "." +:+ fmt_0d 6 (ss mod 1000000)))
  end.

(** [datetime.isoformat(sep)] *)
Definition isoformat (sep : ascii) (dt : datetime) : string :=
  fmt_0d 4 (year dt) +:+ "-" +:+ fmt_0d 2 (month dt) +:+ "-" +:+ fmt_0d 2 (day dt)
  +:+ String sep ""
  +:+ _format_time (hour dt) (minute dt) (second dt) (microsecond dt)
  +:+ _format_offset (utcoffset dt).

Definition _TIME_FORMAT : string := dq +:+ "%Y-%m-%d %H:%M:%S.%6N" +:+ dq.

Definition _format_datetime (date_time : datetime) : string :=
  dq +:+ isoformat " " date_time +:+ dq.

Definition _format_list (param_list : list pyval) : string :=
  let fmt_list := map (λ item, dq +:+ py_str item +:+ dq) param_list in
  join "," fmt_list.

(** ** Call sequences, initial stores and the spec's vocabulary *)

Inductive call : Type :=
  | Connect (data_provs : gmap string ProviderSettings)
            (connection_str : option string) (kwargs : dict)
  | Query (q : string) (query_source : option QuerySource) (kwargs : dict).

Definition run_call (set_iter : gset string → list string) (c : call) (st : state) : state :=
  match c with
  | Connect data_provs connection_str kwargs =>
      (connect set_iter data_provs connection_str kwargs st).2
  | Query q query_source kwargs => (query q query_source kwargs st).2
  end.

Definition run_calls (set_iter : gset string → list string) (cs : list call) (st : state)
    : state :=
  foldl (λ st c, run_call set_iter c st) st cs.

(** The store right after the class body has been executed and an instance
    constructed: the class attribute holds its literal, nothing is printed. *)
Definition fresh (kwargs : dict) : state :=
  {| cls_CONNECT_DEFAULTS := _CONNECT_DEFAULTS; self := __init__ kwargs; stdout := [] |}.

(** DataProviders settings whose "Elastic" section has the arguments [d]. *)
Definition elastic_settings (d : dict) : gmap string ProviderSettings :=
  {[ "Elastic" := {| args := d |} ]}.

(** The dictionary object of the class attribute after the two [update]
    calls of [_get_connect_args]. *)
Definition consolidated (defaults stored kwargs : dict) : dict :=
  kwargs ∪ (stored ∪ defaults).

(** The three-way overlay in the spec's words: an explicit override wins over
    a stored setting, which wins over a default. *)
Definition overlay (defaults stored overrides : dict) (key : string) : option pyval :=
  match overrides !! key with
  | Some v => Some v
  | None =>
      match stored !! key with
      | Some v => Some v
      | None => defaults !! key
      end
  end.

(** The arguments of the configuration error for the missing keys [names]. *)
Definition config_error_args (names : list string) : list string :=
  [ "One or more connection parameters missing for Elastic connector";
    join ", " names;
    "Required parameters are host, username, password";
    "All parameters:";
    "host: (string) The host name (the default is 'localhost').";
    "port: (integer) The port number (the default is 8089).";
    "use_ssl: (bool) Use SSL for accessing the service (default True)";
    "verify_certs: (bool) Verify server cert (default True)";
    "username: (string) The username used for authentication";
    "password: (string) The password for specified user." ].

Definition is_digit (c : ascii) : bool :=
  let n := nat_of_ascii c in (48 <=? n)%nat && (n <=? 57)%nat.

(** Shapes of strings: in a pattern [d] stands for one decimal digit, [#] for
    the double quote and any other character for itself. *)
Fixpoint matches (pat s : string) : bool :=
  match pat, s with
  | "", "" => true
  | String p pat', String c s' =>
      (if Ascii.eqb p "d" then is_digit c
       else if Ascii.eqb p "#" then Ascii.eqb c dq_char
       else Ascii.eqb p c)
      && matches pat' s'
  | _, _ => false
  end.

(** The form "YYYY-MM-DD HH:MM:SS.ffffff" wrapped in double quotes. *)
Definition quoted_datetime_form (s : string) : bool :=
  matches "#dddd-dd-dd dd:dd:dd.dddddd#" s.

(** The same without the fractional seconds. *)
Definition quoted_datetime_form_seconds (s : string) : bool :=
  matches "#dddd-dd-dd dd:dd:dd#" s.

(** The spec's words for [_format_list]: each item's string in double quotes,
    a comma between two items, nothing around. *)
Fixpoint quoted_csv (items : list pyval) : string :=
  match items with
  | [] => ""
  | item :: rest =>
      dq +:+ py_str item +:+ dq
      +:+ match rest with [] => "" | _ :: _ => "," +:+ quoted_csv rest end
  end.

Fixpoint count_dq (s : string) : nat :=
  match s with
  | "" => 0%nat
  | String c s' => ((if Ascii.eqb c dq_char then 1 else 0) + count_dq s')%nat
  end.

Definition first_char (s : string) : option ascii :=
  match s with "" => None | String c _ => Some c end.

Fixpoint last_char (s : string) : option ascii :=
  match s with
  | "" => None
  | String c "" => Some c
  | String _ s' => last_char s'
  end.

(** A well-formed quoted literal: a double quote, a body without any double
    quote, a double quote. *)
Definition quoted_literal (s : string) : bool :=
  bool_decide (first_char s = Some dq_char) && bool_decide (last_char s = Some dq_char)
  && (count_dq s =? 2)%nat.

(** The pattern of [w] decimal digits. *)
Fixpoint digit_pattern (w : nat) : string :=
  match w with
  | O => ""
  | S w' => digit_pattern w' +:+ "d"
  end.

(** The comprehension of [connect]: the entries of [cs_dict] whose key is a
    key of [ELASTIC_CONNECT_ARGS]. *)
Definition arg_dict (cs_dict : dict) : dict :=
  filter (λ kv, kv.1 ∈ ELASTIC_CONNECT_ARGS.*1) cs_dict.

Definition is_connect (c : call) : bool :=
  match c with
  | Connect _ _ _ => true
  | Query _ _ _ => false
  end.

(** Neither the keyword arguments nor the stored settings of the call [c]
    hold the key [key]. *)
Definition call_omits (key : string) (c : call) : Prop :=
  match c with
  | Connect data_provs _ kwargs =>
      kwargs !! key = None ∧ _get_config_settings data_provs !! key = None
  | Query _ _ _ => True
  end.

(** Every [connect] call of the sequence returns, each call running in the
    store that the calls before it have left. *)
Fixpoint all_return (set_iter : gset string → list string) (calls : list call)
    (st : state) : Prop :=
  match calls with
  | [] => True
  | c :: calls' =>
      match c with
      | Connect data_provs connection_str kwargs =>
          (connect set_iter data_provs connection_str kwargs st).1 = Ok tt
      | Query _ _ _ => True
      end
      ∧ all_return set_iter calls' (run_call set_iter c st)
  end.

(** ** The consolidation of the connection arguments *)

Lemma consolidated_lookup (defaults stored kwargs : dict) (key : string) :
  consolidated defaults stored kwargs !! key = overlay defaults stored kwargs key.
Proof.
  unfold consolidated, overlay. rewrite !lookup_union.
  destruct (kwargs !! key), (stored !! key), (defaults !! key); reflexivity.
Qed.

Lemma _get_connect_args_unfold set_iter data_provs connection_str (kwargs : dict) st :
  _get_connect_args set_iter data_provs connection_str kwargs st =
    let cs_dict :=
      consolidated (cls_CONNECT_DEFAULTS st) (_get_config_settings data_provs) kwargs in
    let st' := mkState cs_dict (self st) (stdout st) in
    let name_errs : gset string :=
      filter (λ name, name ∉ ELASTIC_CONNECT_ARGS.*1) (dom cs_dict) in
    let missing_args : gset string := list_to_set _ELASTIC_REQD_ARGS ∖ dom cs_dict in
    if decide (name_errs = ∅) then
      if decide (missing_args ≠ ∅) then
        (Raise (MsticpyUserConfigError (config_error_args (set_iter missing_args))
                  "no Elastic connection parameters"), st')
      else (Ok cs_dict, st')
    else (Raise (UnrecognizedArgumentError name_errs), st').
Proof.
  unfold _get_connect_args, check_kwargs, consolidated. cbn.
  unfold mbind, M_bind, bind, dict_update, dict_read. cbn.
  repeat case_decide; reflexivity.
Qed.

Lemma _get_connect_args_store set_iter data_provs connection_str (kwargs : dict) st :
  (_get_connect_args set_iter data_provs connection_str kwargs st).2 =
    mkState (consolidated (cls_CONNECT_DEFAULTS st) (_get_config_settings data_provs) kwargs)
            (self st) (stdout st).
Proof.
  rewrite _get_connect_args_unfold. cbn zeta.
  repeat case_decide; reflexivity.
Qed.

Lemma _get_connect_args_returns set_iter data_provs connection_str (kwargs : dict) st cs_dict :
  (_get_connect_args set_iter data_provs connection_str kwargs st).1 = Ok cs_dict →
  cs_dict = consolidated (cls_CONNECT_DEFAULTS st) (_get_config_settings data_provs) kwargs.
Proof.
  rewrite _get_connect_args_unfold. cbn zeta.
  repeat case_decide; cbn; congruence.
Qed.

Lemma connect_unfold set_iter data_provs connection_str (kwargs : dict) st :
  connect set_iter data_provs connection_str kwargs st =
    match _get_connect_args set_iter data_provs connection_str kwargs st with
    | (Ok _, st') => (Ok tt, mkState (cls_CONNECT_DEFAULTS st') (self st')
                                     (stdout st' ++ ["connected"]))
    | (Raise e, st') => (Raise e, st')
    end.
Proof. reflexivity. Qed.



(** ** The class attribute is updated in place *)

Lemma consolidated_idempotent (defaults stored kwargs : dict) :
  consolidated (consolidated defaults stored kwargs) stored kwargs
  = consolidated defaults stored kwargs.
Proof.
  apply map_eq; intros k. rewrite !consolidated_lookup. unfold overlay.
  rewrite consolidated_lookup. unfold overlay.
  destruct (kwargs !! k), (stored !! k); reflexivity.
Qed.

Lemma connect_store set_iter data_provs connection_str (kwargs : dict) st :
  cls_CONNECT_DEFAULTS (connect set_iter data_provs connection_str kwargs st).2
  = consolidated (cls_CONNECT_DEFAULTS st) (_get_config_settings data_provs) kwargs.
Proof.
  rewrite connect_unfold, _get_connect_args_unfold. cbn zeta.
  repeat case_decide; reflexivity.
Qed.

Lemma connect_result_consolidated set_iter data_provs connection_str (kwargs : dict) st st' :
  consolidated (cls_CONNECT_DEFAULTS st) (_get_config_settings data_provs) kwargs
  = consolidated (cls_CONNECT_DEFAULTS st') (_get_config_settings data_provs) kwargs →
  (connect set_iter data_provs connection_str kwargs st).1
  = (connect set_iter data_provs connection_str kwargs st').1.
Proof.
  intros H. rewrite !connect_unfold, !_get_connect_args_unfold. cbn zeta.
  rewrite H. repeat case_decide; reflexivity.
Qed.

(** The part of the fixed-defaults property that the in-place update keeps:
    repeating a call with the same settings and overrides gives the same
    result and leaves the same dictionary in the class attribute. *)
Lemma connect_twice_same_arguments set_iter data_provs connection_str (kwargs : dict) st :
  let st1 := (connect set_iter data_provs connection_str kwargs st).2 in
  (connect set_iter data_provs connection_str kwargs st1).1
  = (connect set_iter data_provs connection_str kwargs st).1
  ∧ cls_CONNECT_DEFAULTS (connect set_iter data_provs connection_str kwargs st1).2
    = cls_CONNECT_DEFAULTS st1.
Proof.
  cbn zeta. split.
  - apply connect_result_consolidated.
    rewrite connect_store. apply consolidated_idempotent.
  - rewrite !connect_store. apply consolidated_idempotent.
Qed.

(** C2: on a fresh class, [connect(host="h", username="u", password="p")]
    with no stored settings succeeds and leaves six entries in the class
    attribute [_CONNECT_DEFAULTS], which held three: the next call starts its
    consolidation from that dictionary, so that [connect()] without any
    argument, which fails on a fresh class, now succeeds. *)
Theorem connect_rebinds_class_defaults :
  let kwargs : dict :=
    <["host" := VStr "h"]> (<["username" := VStr "u"]> (<["password" := VStr "p"]> ∅)) in
  let st1 := (connect elements ∅ None kwargs (fresh ∅)).2 in
  (connect elements ∅ None kwargs (fresh ∅)).1 = Ok tt
  ∧ size (cls_CONNECT_DEFAULTS (fresh ∅)) = 3%nat
  ∧ cls_CONNECT_DEFAULTS st1 = kwargs ∪ _CONNECT_DEFAULTS
  ∧ size (cls_CONNECT_DEFAULTS st1) = 6%nat
  ∧ cls_CONNECT_DEFAULTS st1 ≠ _CONNECT_DEFAULTS
  ∧ (connect elements ∅ None ∅ st1).1 = Ok tt
  ∧ (connect elements ∅ None ∅ (fresh ∅)).1 ≠ Ok tt.
Proof.
  cbn zeta. repeat split; try (vm_compute; reflexivity).
  - intros H. apply (f_equal (λ m : dict, m !! "host")) in H.
    vm_compute in H. discriminate H.
  - vm_compute. discriminate.
Qed.

(** ** Validation of the consolidated arguments *)

Lemma recognized_no_name_errs (cs_dict : dict) :
  dom cs_dict ⊆ list_to_set (ELASTIC_CONNECT_ARGS.*1) →
  filter (λ name, name ∉ ELASTIC_CONNECT_ARGS.*1) (dom cs_dict) = (∅ : gset string).
Proof.
  intros Hsub. apply set_eq; intros x.
  rewrite elem_of_filter. split; [|set_solver].
  intros [Hx Hd]. apply Hsub in Hd. set_solver.
Qed.

Lemma missing_args_elem (cs_dict : dict) (key : string) :
  key ∈ (list_to_set _ELASTIC_REQD_ARGS ∖ dom cs_dict : gset string)
  ↔ key ∈ _ELASTIC_REQD_ARGS ∧ cs_dict !! key = None.
Proof.
  rewrite elem_of_difference, elem_of_list_to_set, not_elem_of_dom. reflexivity.
Qed.

(** C3, amended: when the consolidation holds recognized keys only and
    misses a required key, [connect] fails with the configuration error whose
    arguments name exactly the missing keys, list the required keys and
    describe every recognized option; when no required key is missing it
    never raises that error. *)
Theorem connect_missing_required set_iter data_provs connection_str (kwargs : dict) st :
  (∀ X, set_iter X ≡ₚ elements X) →
  let cs_dict :=
    consolidated (cls_CONNECT_DEFAULTS st) (_get_config_settings data_provs) kwargs in
  let missing_args : gset string := list_to_set _ELASTIC_REQD_ARGS ∖ dom cs_dict in
  (dom cs_dict ⊆ list_to_set (ELASTIC_CONNECT_ARGS.*1) → missing_args ≠ ∅ →
   ∃ names,
     (connect set_iter data_provs connection_str kwargs st).1
     = Raise (MsticpyUserConfigError (config_error_args names)
                "no Elastic connection parameters")
     ∧ NoDup names
     ∧ (∀ key, key ∈ names ↔ key ∈ _ELASTIC_REQD_ARGS ∧ cs_dict !! key = None)
     ∧ config_error_args names !! 1%nat = Some (join ", " names)
     ∧ "Required parameters are " +:+ join ", " _ELASTIC_REQD_ARGS
         ∈ config_error_args names
     ∧ Forall (λ '(arg, desc), arg +:+ ": " +:+ desc ∈ config_error_args names)
              ELASTIC_CONNECT_ARGS)
  ∧ (missing_args = ∅ →
     ∀ args title, (connect set_iter data_provs connection_str kwargs st).1
                   ≠ Raise (MsticpyUserConfigError args title)).
Proof.
  intros Hperm cs_dict missing_args. split.
  - intros Hsub Hmiss. exists (set_iter missing_args).
    split; [|split; [|split; [|split; [|split]]]].
    + rewrite connect_unfold, _get_connect_args_unfold. cbn zeta.
      fold cs_dict. fold missing_args.
      rewrite (recognized_no_name_errs cs_dict Hsub).
      rewrite decide_True by done. rewrite decide_True by done. reflexivity.
    + rewrite Hperm. apply NoDup_elements.
    + intros key. rewrite Hperm, elem_of_elements. apply missing_args_elem.
    + reflexivity.
    + unfold config_error_args. cbn. set_solver.
    + unfold ELASTIC_CONNECT_ARGS, config_error_args.
      repeat constructor; cbn; set_solver.
  - intros Hnone args title.
    rewrite connect_unfold, _get_connect_args_unfold. cbn zeta.
    fold cs_dict. fold missing_args.
    repeat case_decide; cbn; congruence.
Qed.

(** With [username="u"] alone on a fresh class, [host] and [password] are
    missing and the error names those two keys. *)
Lemma connect_missing_required_witness :
  ∃ names,
    (connect elements ∅ None (<["username" := VStr "u"]> ∅) (fresh ∅)).1
    = Raise (MsticpyUserConfigError (config_error_args names)
               "no Elastic connection parameters")
    ∧ "host" ∈ names ∧ "password" ∈ names ∧ "username" ∉ names.
Proof.
  destruct (proj1 (connect_missing_required elements ∅ None
                     (<["username" := VStr "u"]> ∅) (fresh ∅)
                     (λ X, reflexivity (elements X))))
    as (names & Hres & _ & Hnames & _).
  - apply (bool_decide_unpack _). vm_compute. exact I.
  - apply (bool_decide_unpack _). vm_compute. exact I.
  - exists names. split; [exact Hres|].
    rewrite !Hnames. repeat split.
    + apply (bool_decide_unpack _). vm_compute. exact I.
    + apply (bool_decide_unpack _). vm_compute. exact I.
    + intros [_ H]. vm_compute in H. discriminate H.
Defined.

(** [connect(foo=1)] on a fresh class: the consolidation misses all three
    required keys, and the error raised is not the configuration error. *)
Lemma connect_missing_required_counterexample :
  let kwargs : dict := <["foo" := VInt 1]> ∅ in
  let cs_dict := consolidated _CONNECT_DEFAULTS ∅ kwargs in
  (list_to_set _ELASTIC_REQD_ARGS ∖ dom cs_dict : gset string)
  = list_to_set _ELASTIC_REQD_ARGS
  ∧ (connect elements ∅ None kwargs (fresh ∅)).1
    = Raise (UnrecognizedArgumentError {["foo"]})
  ∧ ∀ args title, (connect elements ∅ None kwargs (fresh ∅)).1
                  ≠ Raise (MsticpyUserConfigError args title).
Proof.
  cbn zeta. split; [vm_compute; reflexivity|].
  assert ((connect elements ∅ None (<["foo" := VInt 1]> ∅) (fresh ∅)).1
          = Raise (UnrecognizedArgumentError {["foo"]})) as H
    by (vm_compute; reflexivity).
  split; [exact H|]. intros args title. rewrite H. discriminate.
Qed.

(** C8: when the consolidation holds a key outside the six recognized
    options, [connect] fails with the unrecognized-argument error, which
    carries exactly the unrecognized keys; the check comes first, so the
    configuration error is not raised whatever required keys are missing. *)
Theorem connect_unrecognized_key set_iter data_provs connection_str (kwargs : dict)
    st key :
  let cs_dict :=
    consolidated (cls_CONNECT_DEFAULTS st) (_get_config_settings data_provs) kwargs in
  key ∈ dom cs_dict →
  key ∉ ELASTIC_CONNECT_ARGS.*1 →
  ∃ names : gset string,
    connect set_iter data_provs connection_str kwargs st
    = (Raise (UnrecognizedArgumentError names), mkState cs_dict (self st) (stdout st))
    ∧ key ∈ names
    ∧ (∀ k, k ∈ names ↔ k ∈ dom cs_dict ∧ k ∉ ELASTIC_CONNECT_ARGS.*1)
    ∧ ∀ args title, (connect set_iter data_provs connection_str kwargs st).1
                    ≠ Raise (MsticpyUserConfigError args title).
Proof.
  intros cs_dict Hdom Hnot.
  exists (filter (λ name, name ∉ ELASTIC_CONNECT_ARGS.*1) (dom cs_dict)).
  assert (key ∈ (filter (λ name, name ∉ ELASTIC_CONNECT_ARGS.*1) (dom cs_dict)
                 : gset string)) as Hkey by (apply elem_of_filter; done).
  assert (connect set_iter data_provs connection_str kwargs st
          = (Raise (UnrecognizedArgumentError
                      (filter (λ name, name ∉ ELASTIC_CONNECT_ARGS.*1) (dom cs_dict))),
             mkState cs_dict (self st) (stdout st))) as Hres.
  { rewrite connect_unfold, _get_connect_args_unfold. cbn zeta. fold cs_dict.
    rewrite decide_False; [reflexivity|]. intros Hempty.
    rewrite Hempty in Hkey. by apply not_elem_of_empty in Hkey. }
  split; [exact Hres|]. split; [exact Hkey|]. split.
  - intros k. rewrite elem_of_filter. tauto.
  - intros args title. rewrite Hres. discriminate.
Qed.

(** [connect(foo=1)] on a fresh class, where [host], [username] and
    [password] are missing as well. *)
Lemma connect_unrecognized_key_witness :
  (list_to_set _ELASTIC_REQD_ARGS
     ∖ dom (consolidated _CONNECT_DEFAULTS ∅ (<["foo" := VInt 1]> ∅)) : gset string)
  = list_to_set _ELASTIC_REQD_ARGS
  ∧ ∃ names : gset string,
      (connect elements ∅ None (<["foo" := VInt 1]> ∅) (fresh ∅)).1
      = Raise (UnrecognizedArgumentError names)
      ∧ "foo" ∈ names.
Proof.
  split; [vm_compute; reflexivity|].
  destruct (connect_unrecognized_key elements ∅ None (<["foo" := VInt 1]> ∅)
              (fresh ∅) "foo") as (names & Hres & Hin & _).
  - apply (bool_decide_unpack _). vm_compute. exact I.
  - apply (bool_decide_unpack _). vm_compute. exact I.
  - exists names. split; [by rewrite Hres | exact Hin].
Defined.

(** ** The host key has no default *)

Lemma connect_without_host_fails set_iter data_provs connection_str (kwargs : dict) kw :
  _get_config_settings data_provs !! "host" = None →
  kwargs !! "host" = None →
  (connect set_iter data_provs connection_str kwargs (fresh kw)).1 ≠ Ok tt
  ∧ cls_CONNECT_DEFAULTS (connect set_iter data_provs connection_str kwargs (fresh kw)).2
      !! "host" = None.
Proof.
  intros Hs Ho.
  assert (consolidated _CONNECT_DEFAULTS (_get_config_settings data_provs) kwargs
            !! "host" = None) as Hcs.
  { rewrite consolidated_lookup. unfold overlay. rewrite Ho, Hs. reflexivity. }
  split; [|by rewrite connect_store].
  assert ((list_to_set _ELASTIC_REQD_ARGS
             ∖ dom (consolidated _CONNECT_DEFAULTS (_get_config_settings data_provs) kwargs)
           : gset string) ≠ ∅) as Hmiss.
  { intros Hempty.
    assert ("host" ∈ (∅ : gset string)) as Hin; [|by apply not_elem_of_empty in Hin].
    rewrite <- Hempty. apply missing_args_elem. split; [|exact Hcs].
    unfold _ELASTIC_REQD_ARGS. set_solver. }
  rewrite connect_unfold, _get_connect_args_unfold. cbn zeta.
  rewrite (decide_True _ _ Hmiss).
  case_decide; cbn; discriminate.
Qed.

(** C4: on a fresh class with no stored settings,
    [connect(username="u", password="p")] fails with the configuration error
    that names [host] as missing; no [host] entry, and so no ["localhost"],
    is in the defaults or in the consolidated arguments. *)
Theorem connect_host_not_defaulted :
  let kwargs : dict := <["username" := VStr "u"]> (<["password" := VStr "p"]> ∅) in
  (connect elements ∅ None kwargs (fresh ∅)).1
  = Raise (MsticpyUserConfigError (config_error_args ["host"])
             "no Elastic connection parameters")
  ∧ _CONNECT_DEFAULTS !! "host" = None
  ∧ cls_CONNECT_DEFAULTS (connect elements ∅ None kwargs (fresh ∅)).2 !! "host" = None
  ∧ (ELASTIC_CONNECT_ARGS.*2) !! 0%nat
    = Some "(string) The host name (the default is 'localhost').".
Proof.
  cbn zeta. repeat split; vm_compute; reflexivity.
Qed.

(** ** The query stub and the session state *)

(** C6: [query] returns [None] and raises nothing, whatever the query
    string, the query source, the keyword arguments and the state of the
    adapter, and it leaves the store as it found it. *)
Theorem query_returns_nothing (q : string) (query_source : option QuerySource)
    (kwargs : dict) (st : state) :
  query q query_source kwargs st = (Ok VNone, st).
Proof. reflexivity. Qed.

Lemma connect_self set_iter data_provs connection_str (kwargs : dict) st :
  self (connect set_iter data_provs connection_str kwargs st).2 = self st.
Proof.
  rewrite connect_unfold, _get_connect_args_unfold. cbn zeta.
  repeat case_decide; reflexivity.
Qed.

Lemma connect_stdout_ok set_iter data_provs connection_str (kwargs : dict) st :
  (connect set_iter data_provs connection_str kwargs st).1 = Ok tt →
  stdout (connect set_iter data_provs connection_str kwargs st).2
  = (stdout st ++ ["connected"])%list.
Proof.
  rewrite connect_unfold, _get_connect_args_unfold. cbn zeta.
  repeat case_decide; cbn; first [reflexivity | discriminate].
Qed.

Lemma run_call_self set_iter (c : call) (st : state) :
  self (run_call set_iter c st) = self st.
Proof. destruct c; cbn; [apply connect_self | reflexivity]. Qed.

Lemma run_calls_self set_iter (cs : list call) (st : state) :
  self (run_calls set_iter cs st) = self st.
Proof.
  revert st. induction cs as [|c cs IH]; intros st; [reflexivity|].
  cbn. unfold run_calls in IH. rewrite IH. apply run_call_self.
Qed.

(** C7: after construction and after any sequence of [connect] and [query]
    calls, failed or not, the instance is not connected, has no service
    handle and is loaded; no call changes the instance, whether it returns
    or raises, and a [connect] that passes the validation does nothing but
    print its notification. *)
Theorem session_state_invariant set_iter (init_kwargs : dict) (cls_defaults : dict)
    (out : list string) (calls : list call) :
  let st0 := mkState cls_defaults (__init__ init_kwargs) out in
  let st := run_calls set_iter calls st0 in
  _connected (self st) = false
  ∧ service (self st) = None
  ∧ _loaded (self st) = true
  ∧ self st = __init__ init_kwargs
  ∧ (∀ data_provs connection_str (kwargs : dict),
       let r := connect set_iter data_provs connection_str kwargs st in
       self r.2 = self st
       ∧ (r.1 = Ok tt → stdout r.2 = (stdout st ++ ["connected"])%list)).
Proof.
  cbn zeta. split; [|split; [|split; [|split]]].
  - by rewrite run_calls_self.
  - by rewrite run_calls_self.
  - by rewrite run_calls_self.
  - apply run_calls_self.
  - intros data_provs connection_str kwargs.
    split; [apply connect_self | apply connect_stdout_ok].
Qed.

(** On a fresh class, after a [connect] that fails, a [query] and a
    [connect] with the three required arguments, the instance is as
    [__init__] made it, and one more [connect] returns and prints its
    notification. *)
Lemma session_state_invariant_witness :
  let kwargs : dict :=
    <["host" := VStr "h"]> (<["username" := VStr "u"]> (<["password" := VStr "p"]> ∅)) in
  let st := run_calls elements
              [Connect ∅ None ∅; Query "q" None ∅; Connect ∅ None kwargs] (fresh ∅) in
  (connect elements ∅ None ∅ (fresh ∅)).1 ≠ Ok tt
  ∧ _connected (self st) = false
  ∧ service (self st) = None
  ∧ _loaded (self st) = true
  ∧ stdout (connect elements ∅ None ∅ st).2 = (stdout st ++ ["connected"])%list.
Proof.
  intros kwargs st.
  destruct (session_state_invariant elements ∅ _CONNECT_DEFAULTS []
              [Connect ∅ None ∅; Query "q" None ∅; Connect ∅ None kwargs])
    as (Hconnected & Hservice & Hloaded & _ & Hconnect).
  split; [vm_compute; discriminate|].
  split; [exact Hconnected|]. split; [exact Hservice|]. split; [exact Hloaded|].
  apply (proj2 (Hconnect ∅ None ∅)). vm_compute. reflexivity.
Defined.

(** ** Formatting a list parameter *)

Lemma append_cons (ch : ascii) (a b : string) : String ch a +:+ b = String ch (a +:+ b).
Proof. reflexivity. Qed.

Lemma append_assoc (a b c : string) : (a +:+ b) +:+ c = a +:+ (b +:+ c).
Proof.
  induction a as [|ch a IH]; [reflexivity|].
  rewrite !append_cons. by rewrite IH.
Qed.

Lemma append_empty_r (a : string) : a +:+ "" = a.
Proof.
  induction a as [|ch a IH]; [reflexivity|].
  rewrite append_cons. by rewrite IH.
Qed.

Lemma last_char_append (a b : string) : b ≠ "" → last_char (a +:+ b) = last_char b.
Proof.
  intros Hb. induction a as [|ch a IH]; [reflexivity|].
  rewrite append_cons. cbn [last_char]. rewrite IH.
  destruct (a +:+ b) eqn:E; [|reflexivity].
  destruct a; [|discriminate E]. by destruct b.
Qed.

Lemma count_dq_append (a b : string) :
  count_dq (a +:+ b) = (count_dq a + count_dq b)%nat.
Proof.
  induction a as [|ch a IH]; [reflexivity|].
  rewrite append_cons. cbn [count_dq]. rewrite IH. lia.
Qed.

Lemma _format_list_cons (item : pyval) (rest : list pyval) :
  _format_list (item :: rest)
  = dq +:+ py_str item +:+ dq
    +:+ match rest with [] => "" | _ :: _ => "," +:+ _format_list rest end.
Proof.
  unfold _format_list. destruct rest as [|item' rest]; cbn [map join].
  - by rewrite append_empty_r.
  - by rewrite !append_assoc.
Qed.

Lemma _format_list_quoted_csv (param_list : list pyval) :
  _format_list param_list = quoted_csv param_list.
Proof.
  induction param_list as [|item rest IH]; [reflexivity|].
  rewrite _format_list_cons. cbn [quoted_csv]. destruct rest; [reflexivity|].
  by rewrite IH.
Qed.

Lemma append_ne_empty (a : string) (ch : ascii) (b : string) : a +:+ String ch b ≠ "".
Proof. destruct a; [discriminate | rewrite append_cons; discriminate]. Qed.

Lemma _format_list_last (param_list : list pyval) :
  param_list ≠ [] → last_char (_format_list param_list) = Some dq_char.
Proof.
  induction param_list as [|item rest IH]; [done|]. intros _.
  rewrite _format_list_cons. destruct rest as [|item' rest'].
  - rewrite append_empty_r.
    rewrite (last_char_append dq) by apply append_ne_empty.
    rewrite (last_char_append (py_str item)) by discriminate.
    reflexivity.
  - rewrite <- !append_assoc.
    rewrite last_char_append.
    + apply IH. discriminate.
    + rewrite _format_list_cons. discriminate.
Qed.

(** C9: [_format_list] returns the items' strings, each in double quotes,
    separated by commas, with nothing around: the result begins and ends with
    the double quote of an item (it is empty for no item), and the list of a,
    b and c gives the three letters, each in double quotes, with two commas. *)
Theorem format_list_quoted_comma_separated :
  (∀ param_list, _format_list param_list = quoted_csv param_list)
  ∧ (∀ item rest,
       _format_list (item :: rest)
       = dq +:+ py_str item +:+ dq
         +:+ match rest with [] => "" | _ :: _ => "," +:+ _format_list rest end)
  ∧ (∀ item rest,
       first_char (_format_list (item :: rest)) = Some dq_char
       ∧ last_char (_format_list (item :: rest)) = Some dq_char)
  ∧ _format_list [VStr "a"; VStr "b"; VStr "c"]
    = dq +:+ "a" +:+ dq +:+ "," +:+ dq +:+ "b" +:+ dq +:+ "," +:+ dq +:+ "c" +:+ dq.
Proof.
  split; [exact _format_list_quoted_csv|].
  split; [exact _format_list_cons|].
  split; [|reflexivity].
  intros item rest. split.
  - rewrite _format_list_cons. reflexivity.
  - apply _format_list_last. discriminate.
Qed.

Lemma _format_list_cons_more (item : pyval) (rest : list pyval) :
  rest ≠ [] →
  _format_list (item :: rest) = dq +:+ py_str item +:+ dq +:+ "," +:+ _format_list rest.
Proof. intros Hne. rewrite _format_list_cons. by destruct rest. Qed.

Lemma _format_list_embeds (before : list pyval) (item : pyval) (after : list pyval) :
  _format_list (before ++ item :: after)%list
  = match before with [] => "" | _ :: _ => _format_list before +:+ "," end
    +:+ dq +:+ py_str item +:+ dq
    +:+ match after with [] => "" | _ :: _ => "," +:+ _format_list after end.
Proof.
  induction before as [|b before IH].
  - cbn [app]. apply _format_list_cons.
  - change ((b :: before) ++ item :: after)%list
      with (b :: (before ++ item :: after)%list).
    rewrite _format_list_cons_more by (by destruct before).
    rewrite IH. destruct before as [|b' before'].
    + rewrite _format_list_cons, append_empty_r, !append_assoc. reflexivity.
    + rewrite (_format_list_cons_more b) by discriminate.
      rewrite !append_assoc. reflexivity.
Qed.

Lemma count_dq_format_list (param_list : list pyval) :
  count_dq (_format_list param_list)
  = (2 * length param_list + sum_list (count_dq ∘ py_str <$> param_list))%nat.
Proof.
  assert (count_dq dq = 1%nat) as Hdq by reflexivity.
  assert (count_dq "," = 0%nat) as Hcomma by reflexivity.
  induction param_list as [|item rest IH]; [reflexivity|].
  rewrite fmap_cons. cbn [length sum_list sum_list_with compose].
  rewrite _format_list_cons, !count_dq_append, Hdq.
  destruct rest as [|item' rest'].
  - unfold id. cbn. lia.
  - rewrite count_dq_append, IH, Hcomma. unfold id. cbn [length]. lia.
Qed.

Lemma quoted_literal_count (s : string) : quoted_literal s = true → count_dq s = 2%nat.
Proof.
  unfold quoted_literal. intros H.
  apply andb_prop in H as [_ H]. by apply Nat.eqb_eq in H.
Qed.

Lemma count_dq_join_literals (lits : list string) :
  Forall (λ s, quoted_literal s = true) lits →
  count_dq (join "," lits) = (2 * length lits)%nat.
Proof.
  induction 1 as [|s lits Hs Hlits IH]; [reflexivity|].
  cbn [join]. destruct lits as [|s' lits'].
  - rewrite (quoted_literal_count s Hs). reflexivity.
  - rewrite !count_dq_append, (quoted_literal_count s Hs), IH.
    change (count_dq ",") with 0%nat. cbn [length]. lia.
Qed.

(** C10, amended: [_format_list] escapes nothing.  The string of every item
    stands verbatim between the two quotes added for it; when the string of
    some item holds a double quote, the result is not a comma-separated
    sequence of well-formed quoted literals with one literal per item (it
    holds more than two double quotes per item); the one-item list whose item is a, a double quote, b
    gives a double quote, a, a double quote, b, a double quote; and the empty
    list gives the empty string. *)
Theorem format_list_no_escaping :
  (∀ before item after,
     _format_list (before ++ item :: after)%list
     = match before with [] => "" | _ :: _ => _format_list before +:+ "," end
       +:+ dq +:+ py_str item +:+ dq
       +:+ match after with [] => "" | _ :: _ => "," +:+ _format_list after end)
  ∧ (∀ param_list,
       Exists (λ item, count_dq (py_str item) ≠ 0%nat) param_list →
       ∀ lits, length lits = length param_list →
               Forall (λ s, quoted_literal s = true) lits →
               _format_list param_list ≠ join "," lits)
  ∧ _format_list [VStr ("a" +:+ dq +:+ "b")] = dq +:+ "a" +:+ dq +:+ "b" +:+ dq
  ∧ _format_list [] = "".
Proof.
  split; [exact _format_list_embeds|]. split; [|split; reflexivity].
  intros param_list Hex lits Hlen Hlits Heq.
  apply (f_equal count_dq) in Heq.
  rewrite count_dq_format_list, (count_dq_join_literals lits Hlits), Hlen in Heq.
  assert (sum_list (count_dq ∘ py_str <$> param_list) ≠ 0%nat) as Hsum; [|lia].
  clear -Hex. induction Hex as [item rest Hitem | item rest _ IH]; cbn; lia.
Qed.

(** The output for the one-item list whose item is a, a double quote, b is
    not a well-formed quoted literal. *)
Lemma format_list_no_escaping_witness :
  quoted_literal (_format_list [VStr ("a" +:+ dq +:+ "b")]) = false.
Proof.
  destruct (quoted_literal (_format_list [VStr ("a" +:+ dq +:+ "b")])) eqn:Hq;
    [|reflexivity].
  exfalso.
  refine (proj1 (proj2 format_list_no_escaping)
            [VStr ("a" +:+ dq +:+ "b")] _
            [_format_list [VStr ("a" +:+ dq +:+ "b")]] eq_refl _ eq_refl).
  - apply Exists_cons_hd. vm_compute. discriminate.
  - constructor; [exact Hq | constructor].
Defined.

(** Without the count of the literals the property fails: the one-item list
    whose item is a, a double quote, a comma, a double quote, b holds a
    double quote in its item, and its result is a well-formed comma-separated
    sequence of two quoted literals. *)
Lemma format_list_no_escaping_counterexample :
  let item := VStr ("a" +:+ dq +:+ "," +:+ dq +:+ "b") in
  let lits := [dq +:+ "a" +:+ dq; dq +:+ "b" +:+ dq] in
  count_dq (py_str item) = 2%nat
  ∧ Forall (λ s, quoted_literal s = true) lits
  ∧ _format_list [item] = join "," lits.
Proof.
  cbn zeta. split; [reflexivity|]. split; [|reflexivity].
  repeat constructor.
Qed.

(** ** Formatting a datetime parameter *)

Lemma matches_length (pat s : string) :
  matches pat s = true → String.length pat = String.length s.
Proof.
  revert s. induction pat as [|p pat IH]; intros [|c s] H; try discriminate H.
  - reflexivity.
  - cbn [matches] in H. apply andb_prop in H as [_ H].
    cbn [String.length]. by rewrite (IH s H).
Qed.

Lemma matches_append (pat1 pat2 s1 s2 : string) :
  matches pat1 s1 = true → matches pat2 s2 = true →
  matches (pat1 +:+ pat2) (s1 +:+ s2) = true.
Proof.
  revert s1. induction pat1 as [|p pat1 IH]; intros [|c s1] H1 H2;
    try discriminate H1.
  - exact H2.
  - rewrite !append_cons. cbn [matches] in *.
    apply andb_prop in H1 as [Hc H1]. rewrite Hc, (IH s1 H1 H2). reflexivity.
Qed.

Lemma is_digit_digit_char (d : Z) : 0 ≤ d < 10 → is_digit (digit_char d) = true.
Proof.
  intros Hd.
  assert (d = 0 ∨ d = 1 ∨ d = 2 ∨ d = 3 ∨ d = 4 ∨ d = 5 ∨ d = 6 ∨ d = 7 ∨ d = 8 ∨ d = 9)
    as Hcases by lia.
  destruct_or!; subst d; reflexivity.
Qed.

Lemma matches_digits (w : nat) (n : Z) : matches (digit_pattern w) (digits w n) = true.
Proof.
  revert n. induction w as [|w IH]; intros n; [reflexivity|].
  cbn [digit_pattern digits]. apply matches_append; [apply IH|].
  cbn [matches]. rewrite is_digit_digit_char; [reflexivity|].
  apply Z.mod_pos_bound. lia.
Qed.

Lemma matches_fmt_0d (w : nat) (n : Z) :
  n < 10 ^ Z.of_nat w → matches (digit_pattern w) (fmt_0d w n) = true.
Proof.
  intros Hn. unfold fmt_0d.
  destruct (n <? 10 ^ Z.of_nat w) eqn:E; [apply matches_digits|].
  apply Z.ltb_ge in E. lia.
Qed.

(** What [_format_datetime] does give: for a naive datetime the claimed form
    exactly when the microsecond is not zero, and the form without the
    fraction when it is zero. *)
Lemma _format_datetime_naive_form (dt : datetime) :
  valid_datetime dt = true → utcoffset dt = None →
  quoted_datetime_form (_format_datetime dt) = negb (microsecond dt =? 0)
  ∧ quoted_datetime_form_seconds (_format_datetime dt) = (microsecond dt =? 0).
Proof.
  intros Hvalid Hnaive. unfold valid_datetime in Hvalid. rewrite Hnaive in Hvalid.
  repeat (apply andb_prop in Hvalid as [Hvalid ?]).
  repeat match goal with
         | H : (_ <=? _) = true |- _ => apply Z.leb_le in H
         | H : (_ <? _) = true |- _ => apply Z.ltb_lt in H
         end.
  assert (matches ("#" +:+ digit_pattern 4 +:+ "-" +:+ digit_pattern 2 +:+ "-"
                   +:+ digit_pattern 2 +:+ " " +:+ digit_pattern 2 +:+ ":"
                   +:+ digit_pattern 2 +:+ ":" +:+ digit_pattern 2)
            (dq +:+ fmt_0d 4 (year dt) +:+ "-" +:+ fmt_0d 2 (month dt) +:+ "-"
             +:+ fmt_0d 2 (day dt) +:+ " " +:+ fmt_0d 2 (hour dt) +:+ ":"
             +:+ fmt_0d 2 (minute dt) +:+ ":" +:+ fmt_0d 2 (second dt)) = true)
    as Hprefix.
  { assert (day dt ≤ 31).
    { unfold days_in_month in *. repeat case_match; lia. }
    repeat (apply matches_append; [first [reflexivity | apply matches_fmt_0d; cbn; lia]|]).
    apply matches_fmt_0d; cbn; lia. }
  unfold _format_datetime, isoformat, _format_time, _format_offset.
  rewrite Hnaive, append_empty_r.
  destruct (microsecond dt =? 0) eqn:Hus.
  - rewrite append_empty_r.
    assert (matches "#dddd-dd-dd dd:dd:dd#"
              ((dq +:+ fmt_0d 4 (year dt) +:+ "-" +:+ fmt_0d 2 (month dt) +:+ "-"
                +:+ fmt_0d 2 (day dt) +:+ " " +:+ fmt_0d 2 (hour dt) +:+ ":"
                +:+ fmt_0d 2 (minute dt) +:+ ":" +:+ fmt_0d 2 (second dt)) +:+ dq)
            = true) as Hm.
    { apply (matches_append _ "#" _ dq Hprefix). reflexivity. }
    rewrite !append_assoc in Hm. rewrite !append_assoc.
    split; [|exact Hm].
    unfold quoted_datetime_form.
    destruct (matches "#dddd-dd-dd dd:dd:dd.dddddd#" _) eqn:Hfull; [|reflexivity].
    apply matches_length in Hfull. apply matches_length in Hm.
    rewrite <- Hfull in Hm. discriminate Hm.
  - assert (matches "#dddd-dd-dd dd:dd:dd.dddddd#"
              ((dq +:+ fmt_0d 4 (year dt) +:+ "-" +:+ fmt_0d 2 (month dt) +:+ "-"
                +:+ fmt_0d 2 (day dt) +:+ " " +:+ fmt_0d 2 (hour dt) +:+ ":"
                +:+ fmt_0d 2 (minute dt) +:+ ":" +:+ fmt_0d 2 (second dt))
               +:+ "." +:+ fmt_0d 6 (microsecond dt) +:+ dq)
            = true) as Hm.
    { apply (matches_append _ (".dddddd#") _ _ Hprefix).
      apply (matches_append "." ("dddddd#")); [reflexivity|].
      apply (matches_append (digit_pattern 6) "#"); [|reflexivity].
      apply matches_fmt_0d; cbn; lia. }
    rewrite !append_assoc in Hm. rewrite !append_assoc.
    split; [exact Hm|].
    unfold quoted_datetime_form_seconds.
    destruct (matches "#dddd-dd-dd dd:dd:dd#" _) eqn:Hshort; [|reflexivity].
    apply matches_length in Hshort. apply matches_length in Hm.
    rewrite <- Hm in Hshort. discriminate Hshort.
Qed.

(** C5: for midnight of 1 January 2021, a valid naive datetime whose
    microsecond is zero, [_format_datetime] returns the date and the time to
    the second in double quotes, without any fractional part: the result has
    not the form with six fractional digits. *)
Theorem format_datetime_drops_zero_microsecond :
  let date_time := mkDatetime 2021 1 1 0 0 0 0 None in
  valid_datetime date_time = true
  ∧ _format_datetime date_time = dq +:+ "2021-01-01 00:00:00" +:+ dq
  ∧ quoted_datetime_form (_format_datetime date_time) = false
  ∧ quoted_datetime_form
      (_format_datetime (mkDatetime 2021 1 1 0 0 0 5 None)) = true.
Proof. cbn zeta. repeat split; vm_compute; reflexivity. Qed.

(** ** Sequences of calls on one class *)

Lemma run_calls_cons set_iter (c : call) (calls : list call) (st : state) :
  run_calls set_iter (c :: calls) st = run_calls set_iter calls (run_call set_iter c st).
Proof. reflexivity. Qed.

Lemma run_call_cls set_iter (c : call) (st : state) :
  cls_CONNECT_DEFAULTS (run_call set_iter c st)
  = match c with
    | Connect data_provs _ kwargs =>
        consolidated (cls_CONNECT_DEFAULTS st) (_get_config_settings data_provs) kwargs
    | Query _ _ _ => cls_CONNECT_DEFAULTS st
    end.
Proof. destruct c; cbn; [apply connect_store | reflexivity]. Qed.

Lemma consolidated_dom (defaults stored kwargs : dict) :
  dom (consolidated defaults stored kwargs) = dom kwargs ∪ dom stored ∪ dom defaults.
Proof. unfold consolidated. by rewrite !dom_union_L, (assoc_L (∪)). Qed.

Lemma run_calls_dom_grows set_iter (calls : list call) (st : state) :
  dom (cls_CONNECT_DEFAULTS st) ⊆ dom (cls_CONNECT_DEFAULTS (run_calls set_iter calls st)).
Proof.
  revert st. induction calls as [|c calls IH]; intros st; [done|].
  rewrite run_calls_cons. etrans; [|apply IH].
  rewrite run_call_cls. destruct c; [|done].
  rewrite consolidated_dom. apply union_subseteq_r.
Qed.

(** X1: no call removes a key from the dictionary of the class attribute
    [_CONNECT_DEFAULTS]: after any sequence of calls it still has every key it
    had, and every key that the keyword arguments or the stored settings of
    some [connect] call of the sequence held, whether that call raised or
    not. *)
Theorem class_defaults_keys_only_grow set_iter (calls : list call) (st : state) :
  dom (cls_CONNECT_DEFAULTS st) ⊆ dom (cls_CONNECT_DEFAULTS (run_calls set_iter calls st))
  ∧ ∀ data_provs connection_str (kwargs : dict),
      Connect data_provs connection_str kwargs ∈ calls →
      dom kwargs ∪ dom (_get_config_settings data_provs)
        ⊆ dom (cls_CONNECT_DEFAULTS (run_calls set_iter calls st)).
Proof.
  split; [apply run_calls_dom_grows|].
  revert st. induction calls as [|c calls IH]; intros st data_provs connection_str kwargs Hin.
  - by apply elem_of_nil in Hin.
  - rewrite run_calls_cons. apply elem_of_cons in Hin as [<- | Hin].
    + etrans; [|apply run_calls_dom_grows].
      rewrite run_call_cls, consolidated_dom. apply union_subseteq_l.
    + by apply (IH _ _ connection_str).
Qed.

(** X2: a key that no [connect] call of a sequence holds, in its keyword
    arguments or in its stored settings, keeps in the class dictionary the
    value it had before the sequence (or stays absent). *)
Theorem class_defaults_omitted_key_kept set_iter (calls : list call) (st : state)
    (key : string) :
  Forall (call_omits key) calls →
  cls_CONNECT_DEFAULTS (run_calls set_iter calls st) !! key
  = cls_CONNECT_DEFAULTS st !! key.
Proof.
  intros Hall. revert st. induction Hall as [|c calls Hc _ IH]; intros st; [reflexivity|].
  rewrite run_calls_cons, IH, run_call_cls.
  destruct c as [data_provs connection_str kwargs|]; [|reflexivity].
  destruct Hc as [Hk Hs].
  rewrite consolidated_lookup. unfold overlay. by rewrite Hk, Hs.
Qed.

(** On a fresh class, [connect(host="h")], a query and [connect(username="u")]
    leave the port at its default. *)
Lemma class_defaults_omitted_key_kept_witness :
  cls_CONNECT_DEFAULTS
    (run_calls elements
       [Connect ∅ None (<["host" := VStr "h"]> ∅); Query "q" None ∅;
        Connect ∅ None (<["username" := VStr "u"]> ∅)] (fresh ∅)) !! "port"
  = Some (VInt 9200).
Proof.
  rewrite (class_defaults_omitted_key_kept elements _ (fresh ∅) "port").
  - reflexivity.
  - repeat constructor.
Defined.

Lemma connect_unrecognized_in_class set_iter data_provs connection_str (kwargs : dict)
    (st : state) (key : string) :
  key ∈ dom (cls_CONNECT_DEFAULTS st) → key ∉ ELASTIC_CONNECT_ARGS.*1 →
  ∃ names : gset string,
    (connect set_iter data_provs connection_str kwargs st).1
    = Raise (UnrecognizedArgumentError names) ∧ key ∈ names.
Proof.
  intros Hdom Hnot.
  set (cs_dict :=
         consolidated (cls_CONNECT_DEFAULTS st) (_get_config_settings data_provs) kwargs).
  assert (key ∈ (filter (λ name, name ∉ ELASTIC_CONNECT_ARGS.*1) (dom cs_dict)
                 : gset string)) as Hkey.
  { apply elem_of_filter. split; [done|].
    unfold cs_dict. rewrite consolidated_dom. by apply elem_of_union_r. }
  exists (filter (λ name, name ∉ ELASTIC_CONNECT_ARGS.*1) (dom cs_dict)).
  split; [|exact Hkey].
  rewrite connect_unfold, _get_connect_args_unfold. cbn zeta. fold cs_dict.
  rewrite decide_False; [reflexivity|]. intros Hempty.
  rewrite Hempty in Hkey. by apply not_elem_of_empty in Hkey.
Qed.

(** X3: one unrecognized keyword spoils the class.  When [connect] is given a
    keyword outside the recognized options, the key stays in the class
    dictionary although the call raises, and every later [connect], after any
    further calls and whatever its own settings and arguments are, raises the
    unrecognized-argument error naming that key. *)
Theorem unrecognized_key_poisons_class set_iter data_provs connection_str (kwargs : dict)
    (st : state) (key : string) (v : pyval) :
  kwargs !! key = Some v →
  key ∉ ELASTIC_CONNECT_ARGS.*1 →
  let st1 := (connect set_iter data_provs connection_str kwargs st).2 in
  cls_CONNECT_DEFAULTS st1 !! key = Some v
  ∧ ∀ calls data_provs' connection_str' (kwargs' : dict),
      ∃ names : gset string,
        (connect set_iter data_provs' connection_str' kwargs'
           (run_calls set_iter calls st1)).1
        = Raise (UnrecognizedArgumentError names)
        ∧ key ∈ names.
Proof.
  intros Hk Hnot st1.
  assert (cls_CONNECT_DEFAULTS st1 !! key = Some v) as Hst1.
  { unfold st1. rewrite connect_store, consolidated_lookup. unfold overlay. by rewrite Hk. }
  split; [exact Hst1|].
  intros calls data_provs' connection_str' kwargs'.
  apply connect_unrecognized_in_class; [|exact Hnot].
  apply (run_calls_dom_grows set_iter calls st1).
  apply elem_of_dom. by exists v.
Qed.

(** After [connect(foo=1)] on a fresh class, a call with the three required
    arguments fails with the unrecognized-argument error. *)
Lemma unrecognized_key_poisons_class_witness :
  let st1 := (connect elements ∅ None (<["foo" := VInt 1]> ∅) (fresh ∅)).2 in
  let kwargs : dict :=
    <["host" := VStr "h"]> (<["username" := VStr "u"]> (<["password" := VStr "p"]> ∅)) in
  (connect elements ∅ None kwargs (fresh ∅)).1 = Ok tt
  ∧ ∃ names : gset string,
      (connect elements ∅ None kwargs st1).1 = Raise (UnrecognizedArgumentError names)
      ∧ "foo" ∈ names.
Proof.
  intros st1 kwargs. split; [vm_compute; reflexivity|].
  assert ((<["foo" := VInt 1]> ∅ : dict) !! "foo" = Some (VInt 1)) as Hk
    by (vm_compute; reflexivity).
  assert ("foo" ∉ ELASTIC_CONNECT_ARGS.*1) as Hnot
    by (apply (bool_decide_unpack _); vm_compute; exact I).
  exact (proj2 (unrecognized_key_poisons_class elements ∅ None _ (fresh ∅) "foo" (VInt 1)
                  Hk Hnot) [] ∅ None kwargs).
Defined.

(** ** When [connect] succeeds *)

Lemma connect_ok_keys set_iter data_provs connection_str (kwargs : dict) (st : state) :
  let cs_dict :=
    consolidated (cls_CONNECT_DEFAULTS st) (_get_config_settings data_provs) kwargs in
  (connect set_iter data_provs connection_str kwargs st).1 = Ok tt →
  dom cs_dict ⊆ list_to_set (ELASTIC_CONNECT_ARGS.*1)
  ∧ list_to_set _ELASTIC_REQD_ARGS ⊆ dom cs_dict.
Proof.
  intros cs_dict. rewrite connect_unfold, _get_connect_args_unfold. cbn zeta.
  fold cs_dict.
  destruct (decide (filter (λ name, name ∉ ELASTIC_CONNECT_ARGS.*1) (dom cs_dict)
                    = (∅ : gset string))) as [He|He]; [|discriminate].
  destruct (decide ((list_to_set _ELASTIC_REQD_ARGS ∖ dom cs_dict : gset string) ≠ ∅))
    as [Hm|Hm]; [discriminate|].
  intros _. split.
  - intros k Hk. apply elem_of_list_to_set.
    destruct (decide (k ∈ ELASTIC_CONNECT_ARGS.*1)) as [|Hn]; [done|].
    assert (k ∈ (∅ : gset string)) as Hin; [|by apply not_elem_of_empty in Hin].
    rewrite <- He. by apply elem_of_filter.
  - intros k Hk. destruct (decide (k ∈ dom cs_dict)) as [|Hn]; [done|].
    exfalso. apply Hm. intros Hempty.
    assert (k ∈ (∅ : gset string)) as Hin; [|by apply not_elem_of_empty in Hin].
    rewrite <- Hempty. by apply elem_of_difference.
Qed.

Lemma connect_keys_ok set_iter data_provs connection_str (kwargs : dict) (st : state) :
  let cs_dict :=
    consolidated (cls_CONNECT_DEFAULTS st) (_get_config_settings data_provs) kwargs in
  dom cs_dict ⊆ list_to_set (ELASTIC_CONNECT_ARGS.*1) →
  list_to_set _ELASTIC_REQD_ARGS ⊆ dom cs_dict →
  connect set_iter data_provs connection_str kwargs st
  = (Ok tt, mkState cs_dict (self st) (stdout st ++ ["connected"])%list).
Proof.
  intros cs_dict Hrec Hreq.
  rewrite connect_unfold, _get_connect_args_unfold. cbn zeta. fold cs_dict.
  rewrite (recognized_no_name_errs cs_dict Hrec).
  rewrite decide_True by done.
  rewrite decide_False; [reflexivity|].
  intros Hne. apply Hne. by apply subseteq_empty_difference_L.
Qed.

(** X4: [connect] succeeds exactly when the consolidated dictionary has
    recognized keys only and has the three required keys; it then returns
    nothing, leaves that dictionary in the class attribute, leaves the
    instance as it was and prints the one line [connected]. *)
Theorem connect_succeeds_iff set_iter data_provs connection_str (kwargs : dict)
    (st : state) :
  let cs_dict :=
    consolidated (cls_CONNECT_DEFAULTS st) (_get_config_settings data_provs) kwargs in
  ((connect set_iter data_provs connection_str kwargs st).1 = Ok tt
   ↔ dom cs_dict ⊆ list_to_set (ELASTIC_CONNECT_ARGS.*1)
     ∧ list_to_set _ELASTIC_REQD_ARGS ⊆ dom cs_dict)
  ∧ ((connect set_iter data_provs connection_str kwargs st).1 = Ok tt →
     (connect set_iter data_provs connection_str kwargs st).2
     = mkState cs_dict (self st) (stdout st ++ ["connected"])%list).
Proof.
  intros cs_dict. split; [split|].
  - apply connect_ok_keys.
  - intros [Hrec Hreq]. by rewrite (connect_keys_ok _ _ _ _ _ Hrec Hreq).
  - intros Hok. apply connect_ok_keys in Hok as [Hrec Hreq].
    by rewrite (connect_keys_ok _ _ _ _ _ Hrec Hreq).
Qed.

(** X5: once a [connect] has succeeded, the credentials stay with the class:
    no later [connect], after any further calls and whatever its settings and
    arguments, raises the missing-parameter error; and the next [connect]
    succeeds whenever its own settings and arguments have recognized keys
    only, even with no argument at all. *)
Theorem required_keys_stick set_iter data_provs connection_str (kwargs : dict)
    (st : state) :
  (connect set_iter data_provs connection_str kwargs st).1 = Ok tt →
  let st1 := (connect set_iter data_provs connection_str kwargs st).2 in
  (∀ calls data_provs' connection_str' (kwargs' : dict) args title,
     (connect set_iter data_provs' connection_str' kwargs'
        (run_calls set_iter calls st1)).1
     ≠ Raise (MsticpyUserConfigError args title))
  ∧ (∀ data_provs' connection_str' (kwargs' : dict),
       dom kwargs' ∪ dom (_get_config_settings data_provs')
         ⊆ list_to_set (ELASTIC_CONNECT_ARGS.*1) →
       (connect set_iter data_provs' connection_str' kwargs' st1).1 = Ok tt).
Proof.
  intros Hok st1.
  apply connect_ok_keys in Hok as [Hrec Hreq].
  assert (cls_CONNECT_DEFAULTS st1
          = consolidated (cls_CONNECT_DEFAULTS st) (_get_config_settings data_provs) kwargs)
    as Hst1 by apply connect_store.
  split.
  - intros calls data_provs' connection_str' kwargs' args title.
    rewrite connect_unfold, _get_connect_args_unfold. cbn zeta.
    repeat case_decide; try (cbn; discriminate).
    match goal with H : _ ∖ _ ≠ ∅ |- _ => exfalso; apply H end.
    apply subseteq_empty_difference_L. intros k Hk.
    rewrite consolidated_dom. apply elem_of_union_r.
    apply (run_calls_dom_grows set_iter calls st1). rewrite Hst1. by apply Hreq.
  - intros data_provs' connection_str' kwargs' Hrec'.
    rewrite connect_keys_ok; [reflexivity| |].
    + rewrite consolidated_dom, Hst1. apply union_least; [exact Hrec' | exact Hrec].
    + rewrite consolidated_dom, Hst1. etrans; [exact Hreq | apply union_subseteq_r].
Qed.

(** After a successful call with the three required arguments on a fresh
    class, [connect(port=1)] succeeds. *)
Lemma required_keys_stick_witness :
  let kwargs : dict :=
    <["host" := VStr "h"]> (<["username" := VStr "u"]> (<["password" := VStr "p"]> ∅)) in
  let st1 := (connect elements ∅ None kwargs (fresh ∅)).2 in
  (connect elements ∅ None (<["port" := VInt 1]> ∅) (fresh ∅)).1 ≠ Ok tt
  ∧ (connect elements ∅ None (<["port" := VInt 1]> ∅) st1).1 = Ok tt.
Proof.
  intros kwargs st1. split; [vm_compute; discriminate|].
  assert ((connect elements ∅ None kwargs (fresh ∅)).1 = Ok tt) as Hok
    by (vm_compute; reflexivity).
  apply (proj2 (required_keys_stick elements ∅ None kwargs (fresh ∅) Hok)
           ∅ None (<["port" := VInt 1]> ∅)).
  apply (bool_decide_unpack _). vm_compute. exact I.
Defined.

(** X6: [connect] looks at the keys only, never at a value: two calls whose
    consolidated dictionaries have the same keys end the same way (both
    succeed, or both raise the same error with the same arguments). *)
Theorem connect_checks_keys_only set_iter
    data_provs1 connection_str1 (kwargs1 : dict) (st1 : state)
    data_provs2 connection_str2 (kwargs2 : dict) (st2 : state) :
  dom (consolidated (cls_CONNECT_DEFAULTS st1) (_get_config_settings data_provs1) kwargs1)
  = dom (consolidated (cls_CONNECT_DEFAULTS st2) (_get_config_settings data_provs2) kwargs2) →
  (connect set_iter data_provs1 connection_str1 kwargs1 st1).1
  = (connect set_iter data_provs2 connection_str2 kwargs2 st2).1.
Proof.
  intros Hdom. rewrite !connect_unfold, !_get_connect_args_unfold. cbn zeta.
  rewrite Hdom. repeat case_decide; reflexivity.
Qed.

(** [connect(host=None, username=0, password=False)] succeeds as the call
    with three strings does. *)
Lemma connect_checks_keys_only_witness :
  let kwargs1 : dict :=
    <["host" := VNone]> (<["username" := VInt 0]> (<["password" := VBool false]> ∅)) in
  let kwargs2 : dict :=
    <["host" := VStr "h"]> (<["username" := VStr "u"]> (<["password" := VStr "p"]> ∅)) in
  (connect elements ∅ None kwargs2 (fresh ∅)).1 = Ok tt
  ∧ (connect elements ∅ None kwargs1 (fresh ∅)).1
    = (connect elements ∅ None kwargs2 (fresh ∅)).1.
Proof.
  intros kwargs1 kwargs2. split; [vm_compute; reflexivity|].
  apply connect_checks_keys_only.
  apply (bool_decide_unpack _). vm_compute. exact I.
Defined.

Lemma connect_ok_returns set_iter data_provs connection_str (kwargs : dict) (st : state) :
  (connect set_iter data_provs connection_str kwargs st).1 = Ok tt →
  (_get_connect_args set_iter data_provs connection_str kwargs st).1
  = Ok (consolidated (cls_CONNECT_DEFAULTS st) (_get_config_settings data_provs) kwargs).
Proof.
  rewrite connect_unfold, _get_connect_args_unfold. cbn zeta.
  repeat case_decide; cbn; first [reflexivity | discriminate].
Qed.

(** X7: the dictionary that [_get_connect_args] returns is the one it left
    in the class attribute, and the comprehension of [connect] that keeps the
    recognized keys changes nothing in it: [arg_dict] is [cs_dict]. *)
Theorem connect_arg_dict_is_cs_dict set_iter data_provs connection_str (kwargs : dict)
    (st : state) (cs_dict : dict) :
  (_get_connect_args set_iter data_provs connection_str kwargs st).1 = Ok cs_dict →
  cs_dict = cls_CONNECT_DEFAULTS
              (_get_connect_args set_iter data_provs connection_str kwargs st).2
  ∧ arg_dict cs_dict = cs_dict.
Proof.
  intros Hret.
  assert (cs_dict = consolidated (cls_CONNECT_DEFAULTS st)
                      (_get_config_settings data_provs) kwargs) as Hcs
    by (by apply _get_connect_args_returns in Hret).
  split; [by rewrite _get_connect_args_store|].
  assert ((connect set_iter data_provs connection_str kwargs st).1 = Ok tt) as Hok.
  { rewrite connect_unfold.
    destruct (_get_connect_args set_iter data_provs connection_str kwargs st) as [[a|e] st'];
      [reflexivity | discriminate Hret]. }
  apply connect_ok_keys in Hok as [Hrec _]. rewrite <- Hcs in Hrec.
  unfold arg_dict. apply map_filter_id. intros k x Hkx.
  assert (k ∈ dom cs_dict) as Hd by (apply elem_of_dom; by exists x).
  apply Hrec in Hd. apply elem_of_list_to_set in Hd. exact Hd.
Qed.

(** The call with the three required arguments on a fresh class. *)
Lemma connect_arg_dict_is_cs_dict_witness :
  let kwargs : dict :=
    <["host" := VStr "h"]> (<["username" := VStr "u"]> (<["password" := VStr "p"]> ∅)) in
  arg_dict (consolidated _CONNECT_DEFAULTS ∅ kwargs) = consolidated _CONNECT_DEFAULTS ∅ kwargs
  ∧ arg_dict (<["foo" := VInt 1]> kwargs) ≠ <["foo" := VInt 1]> kwargs.
Proof.
  intros kwargs. split.
  - assert ((connect elements ∅ None kwargs (fresh ∅)).1 = Ok tt) as Hok
      by (vm_compute; reflexivity).
    exact (proj2 (connect_arg_dict_is_cs_dict elements ∅ None kwargs (fresh ∅) _
                    (connect_ok_returns _ _ _ _ _ Hok))).
  - intros H. apply (f_equal (λ m : dict, m !! "foo")) in H.
    vm_compute in H. discriminate H.
Defined.

(** ** What a session prints and what it reads *)

(** X8: a [connect] that returns prints the one line [connected] and a
    [query] prints nothing: after a sequence of calls in which every [connect]
    returns, the output is the output before it followed by one such line for
    each [connect] call. *)
Theorem session_prints_connected_only set_iter (calls : list call) (st : state) :
  all_return set_iter calls st →
  stdout (run_calls set_iter calls st)
  = (stdout st ++ replicate (length (filter is_connect calls)) "connected")%list.
Proof.
  revert st. induction calls as [|c calls IH]; intros st Hall.
  - cbn. by rewrite app_nil_r.
  - destruct Hall as [Hc Hall]. rewrite run_calls_cons, (IH _ Hall).
    destruct c as [data_provs connection_str kwargs | q query_source kwargs].
    + change (filter is_connect (Connect data_provs connection_str kwargs :: calls))
        with (Connect data_provs connection_str kwargs :: filter is_connect calls).
      cbn [run_call length replicate].
      rewrite (connect_stdout_ok _ _ _ _ _ Hc), <- app_assoc. reflexivity.
    + change (filter is_connect (Query q query_source kwargs :: calls))
        with (filter is_connect calls).
      reflexivity.
Qed.

(** On a fresh class: a [connect] with the three required arguments, a
    [query] and a [connect] without any argument. *)
Lemma session_prints_connected_only_witness :
  let kwargs : dict :=
    <["host" := VStr "h"]> (<["username" := VStr "u"]> (<["password" := VStr "p"]> ∅)) in
  stdout (run_calls elements
            [Connect ∅ None kwargs; Query "q" None ∅; Connect ∅ None ∅] (fresh ∅))
  = ["connected"; "connected"].
Proof.
  intros kwargs.
  apply (session_prints_connected_only elements
           [Connect ∅ None kwargs; Query "q" None ∅; Connect ∅ None ∅] (fresh ∅)).
  repeat split; vm_compute; reflexivity.
Defined.

(** X9: of the settings, [connect] reads the section Elastic alone, and it
    never reads its connection string: two calls with the same keyword
    arguments whose settings agree on that section do the same, whatever the
    other sections and the two connection strings are; without the section
    the call does what it does with no settings at all. *)
Theorem connect_reads_elastic_section_only set_iter
    (data_provs1 data_provs2 : gmap string ProviderSettings)
    (connection_str1 connection_str2 : option string) (kwargs : dict) (st : state) :
  data_provs1 !! "Elastic" = data_provs2 !! "Elastic" →
  connect set_iter data_provs1 connection_str1 kwargs st
  = connect set_iter data_provs2 connection_str2 kwargs st
  ∧ (data_provs1 !! "Elastic" = None →
     connect set_iter data_provs1 connection_str1 kwargs st
     = connect set_iter ∅ None kwargs st).
Proof.
  intros Hsec.
  assert (_get_config_settings data_provs1 = _get_config_settings data_provs2) as Hcfg
    by (unfold _get_config_settings; by rewrite Hsec).
  split.
  - rewrite !connect_unfold, !_get_connect_args_unfold. cbn zeta. by rewrite Hcfg.
  - intros Hnone.
    assert (_get_config_settings data_provs1 = _get_config_settings ∅) as Hempty
      by (unfold _get_config_settings; by rewrite Hnone, lookup_empty).
    rewrite !connect_unfold, !_get_connect_args_unfold. cbn zeta. by rewrite Hempty.
Qed.

(** Settings with a section for another provider beside the section Elastic,
    and a connection string. *)
Lemma connect_reads_elastic_section_only_witness :
  let stored : dict := <["host" := VStr "h"]> ∅ in
  let other : dict := <["host" := VStr "elsewhere"]> (<["foo" := VInt 1]> ∅) in
  connect elements (<["Splunk" := {| args := other |}]> (elastic_settings stored))
    (Some "host=x") ∅ (fresh ∅)
  = connect elements (elastic_settings stored) None ∅ (fresh ∅).
Proof.
  intros stored other.
  apply connect_reads_elastic_section_only.
  vm_compute. reflexivity.
Defined.

Lemma run_calls_replicate_fixed set_iter data_provs connection_str (kwargs : dict)
    (n : nat) (st : state) :
  consolidated (cls_CONNECT_DEFAULTS st) (_get_config_settings data_provs) kwargs
  = cls_CONNECT_DEFAULTS st →
  cls_CONNECT_DEFAULTS
    (run_calls set_iter (replicate n (Connect data_provs connection_str kwargs)) st)
  = cls_CONNECT_DEFAULTS st.
Proof.
  revert st. induction n as [|n IH]; intros st Hfix; [reflexivity|].
  cbn [replicate]. rewrite run_calls_cons, IH.
  - by rewrite run_call_cls.
  - rewrite run_call_cls. by rewrite !Hfix.
Qed.

(** X10: repeating a call changes nothing more.  When the same [connect]
    call, with the same settings, is made again and again, every call ends as
    the first did (all return, or all raise the same error), and the class
    dictionary stays what the first call made it. *)
Theorem connect_repeat_idempotent set_iter data_provs connection_str (kwargs : dict)
    (st : state) (n : nat) :
  let c := Connect data_provs connection_str kwargs in
  (connect set_iter data_provs connection_str kwargs
     (run_calls set_iter (replicate n c) st)).1
  = (connect set_iter data_provs connection_str kwargs st).1
  ∧ cls_CONNECT_DEFAULTS (run_calls set_iter (replicate (S n) c) st)
    = cls_CONNECT_DEFAULTS (run_call set_iter c st).
Proof.
  intros c.
  assert (∀ m, cls_CONNECT_DEFAULTS (run_calls set_iter (replicate (S m) c) st)
               = cls_CONNECT_DEFAULTS (run_call set_iter c st)) as Hstore.
  { intros m. cbn [replicate]. rewrite run_calls_cons. apply run_calls_replicate_fixed.
    unfold c. rewrite run_call_cls. apply consolidated_idempotent. }
  split; [|apply Hstore].
  destruct n as [|n]; [reflexivity|].
  apply connect_result_consolidated.
  rewrite Hstore. unfold c. rewrite run_call_cls. apply consolidated_idempotent.
Qed.

(** X11: the port of a fresh class is 9200, not the 8089 of the help text.
    On a freshly loaded class, when neither the stored settings nor the
    keyword arguments give a port, [connect] leaves the port 9200 in the
    consolidated dictionary, whether it returns or raises; and when it raises
    the missing-parameter error, the error's description of the port says that
    the default is 8089. *)
Theorem connect_port_default_differs_from_help set_iter data_provs connection_str
    (kwargs init_kwargs : dict) :
  _get_config_settings data_provs !! "port" = None →
  kwargs !! "port" = None →
  let r := connect set_iter data_provs connection_str kwargs (fresh init_kwargs) in
  cls_CONNECT_DEFAULTS r.2 !! "port" = Some (VInt 9200)
  ∧ ∀ args title,
      r.1 = Raise (MsticpyUserConfigError args title) →
      "port: (integer) The port number (the default is 8089)." ∈ args.
Proof.
  intros Hs Hk r. split.
  - unfold r. rewrite connect_store, consolidated_lookup. unfold overlay.
    rewrite Hk, Hs. reflexivity.
  - intros args title. unfold r.
    rewrite connect_unfold, _get_connect_args_unfold. cbn zeta.
    repeat case_decide; cbn; intros Heq; try discriminate Heq.
    injection Heq as <- _. unfold config_error_args.
    do 5 apply list_elem_of_further. apply list_elem_of_here.
Qed.

(** [connect(username="u")] on a fresh class. *)
Lemma connect_port_default_differs_from_help_witness :
  let r := connect elements ∅ None (<["username" := VStr "u"]> ∅) (fresh ∅) in
  cls_CONNECT_DEFAULTS r.2 !! "port" = Some (VInt 9200)
  ∧ ∃ args title,
      r.1 = Raise (MsticpyUserConfigError args title)
      ∧ "port: (integer) The port number (the default is 8089)." ∈ args.
Proof.
  intros r.
  assert (_get_config_settings ∅ !! "port" = None) as Hs by (vm_compute; reflexivity).
  assert ((<["username" := VStr "u"]> ∅ : dict) !! "port" = None) as Hk
    by (vm_compute; reflexivity).
  destruct (connect_port_default_differs_from_help elements ∅ None
              (<["username" := VStr "u"]> ∅) ∅ Hs Hk) as [Hport Hmsg].
  split; [exact Hport|].
  exists (config_error_args (elements ({["host"; "password"]} : gset string))),
         "no Elastic connection parameters".
  assert (r.1 = Raise (MsticpyUserConfigError
                         (config_error_args (elements ({["host"; "password"]} : gset string)))
                         "no Elastic connection parameters")) as Hr
    by (vm_compute; reflexivity).
  split; [exact Hr|]. exact (Hmsg _ _ Hr).
Defined.

(** ** More on the formatting of a list parameter *)

(** X12: [_format_list] of a concatenation is the two formatted parts, with a
    comma between them when both lists have an item and nothing otherwise. *)
Theorem format_list_app (l1 l2 : list pyval) :
  _format_list (l1 ++ l2)%list
  = _format_list l1
    +:+ match l1, l2 with _ :: _, _ :: _ => "," | _, _ => "" end
    +:+ _format_list l2.
Proof.
  induction l1 as [|item l1 IH]; [reflexivity|].
  destruct l2 as [|item2 l2].
  - rewrite app_nil_r. change (_format_list []) with "". by rewrite !append_empty_r.
  - change ((item :: l1) ++ item2 :: l2)%list with (item :: (l1 ++ item2 :: l2)%list).
    rewrite _format_list_cons_more by (by destruct l1).
    rewrite IH. destruct l1 as [|item1 l1].
    + rewrite (_format_list_cons item []), append_empty_r.
      change (_format_list []) with "".
      rewrite !append_assoc. reflexivity.
    + rewrite (_format_list_cons_more item) by discriminate.
      rewrite !append_assoc. reflexivity.
Qed.

Lemma _format_list_strings (param_list : list pyval) :
  _format_list param_list
  = join "," ((λ s, dq +:+ s +:+ dq) <$> (py_str <$> param_list)).
Proof. unfold _format_list. by rewrite <- list_fmap_compose. Qed.

(** X13: [_format_list] keeps the string of each item and nothing of its
    type: two lists whose items have the same strings, item by item, give the
    same result. *)
Theorem format_list_forgets_types (l1 l2 : list pyval) :
  py_str <$> l1 = py_str <$> l2 → _format_list l1 = _format_list l2.
Proof. intros Heq. rewrite !_format_list_strings. by rewrite Heq. Qed.

(** The integers 1 and -5, [True] and [None] are formatted as the strings
    that spell them. *)
Lemma format_list_forgets_types_witness :
  _format_list [VInt 1; VBool true; VNone; VInt (-5)]
  = _format_list [VStr "1"; VStr "True"; VStr "None"; VStr "-5"].
Proof.
  apply format_list_forgets_types. vm_compute. reflexivity.
Defined.

(** X14: an item whose string holds a double quote, a comma and a double
    quote is formatted as two items are: the item made of [a], these three
    characters and [b], anywhere in a list, gives what the two items [a] and
    [b] give in its place.  [_format_list] is not injective. *)
Theorem format_list_item_splits (before after : list pyval) (a b : string) :
  _format_list (before ++ VStr (a +:+ dq +:+ "," +:+ dq +:+ b) :: after)%list
  = _format_list (before ++ VStr a :: VStr b :: after)%list
  ∧ (before ++ VStr (a +:+ dq +:+ "," +:+ dq +:+ b) :: after)%list
    ≠ (before ++ VStr a :: VStr b :: after)%list.
Proof.
  split.
  - rewrite !_format_list_embeds, (_format_list_cons (VStr b) after).
    cbn [py_str]. rewrite !append_assoc. reflexivity.
  - intros Heq. apply (f_equal length) in Heq.
    rewrite !length_app in Heq. cbn [length] in Heq. lia.
Qed.

Lemma append_empty_l (a : string) : "" +:+ a = a.
Proof. reflexivity. Qed.

Lemma quote_free_prefix_inj (a1 a2 r1 r2 : string) :
  count_dq a1 = 0%nat → count_dq a2 = 0%nat →
  a1 +:+ dq +:+ r1 = a2 +:+ dq +:+ r2 → a1 = a2 ∧ r1 = r2.
Proof.
  revert a2. induction a1 as [|c1 a1 IH]; intros [|c2 a2] H1 H2 Heq.
  - unfold dq in Heq. rewrite !append_empty_l, !append_cons, !append_empty_l in Heq.
    by injection Heq as ->.
  - exfalso. unfold dq in Heq. rewrite !append_empty_l, !append_cons in Heq.
    injection Heq as Hc _. subst c2. cbn [count_dq] in H2.
    rewrite Ascii.eqb_refl in H2. discriminate H2.
  - exfalso. unfold dq in Heq. rewrite !append_empty_l, !append_cons in Heq.
    injection Heq as Hc _. subst c1. cbn [count_dq] in H1.
    rewrite Ascii.eqb_refl in H1. discriminate H1.
  - rewrite !append_cons in Heq. injection Heq as -> Heq.
    cbn [count_dq] in H1, H2.
    destruct (IH a2) as [-> ->]; [lia | lia | exact Heq | done].
Qed.

(** X15: on items whose strings hold no double quote, the result of
    [_format_list] determines the number of items and the string of each. *)
Theorem format_list_injective_without_quotes (l1 l2 : list pyval) :
  Forall (λ item, count_dq (py_str item) = 0%nat) l1 →
  Forall (λ item, count_dq (py_str item) = 0%nat) l2 →
  _format_list l1 = _format_list l2 →
  py_str <$> l1 = py_str <$> l2.
Proof.
  intros H1. revert l2. induction H1 as [|x l1 Hx _ IH]; intros l2 H2 Heq.
  - destruct l2 as [|y l2]; [reflexivity|].
    rewrite _format_list_cons in Heq. unfold dq in Heq at 1.
    rewrite append_cons in Heq. discriminate Heq.
  - destruct H2 as [|y l2 Hy H2].
    + rewrite _format_list_cons in Heq. unfold dq in Heq at 1.
      rewrite append_cons in Heq. discriminate Heq.
    + rewrite !_format_list_cons in Heq.
      unfold dq in Heq at 1 3. rewrite !append_cons in Heq.
      injection Heq as Heq. rewrite !append_empty_l in Heq.
      apply quote_free_prefix_inj in Heq as [Hxy Hrest]; [|done..].
      rewrite !fmap_cons, Hxy. f_equal.
      destruct l1 as [|x' l1], l2 as [|y' l2]; try discriminate Hrest.
      * reflexivity.
      * apply IH; [exact H2|]. by injection Hrest.
Qed.

(** The lists [1, "a"] and ["1", "a"] have the same result and the same
    strings. *)
Lemma format_list_injective_without_quotes_witness :
  py_str <$> [VInt 1; VStr "a"] = py_str <$> [VStr "1"; VStr "a"].
Proof.
  apply format_list_injective_without_quotes.
  - repeat constructor.
  - repeat constructor.
  - vm_compute. reflexivity.
Defined.

(** ** More on the formatting of a datetime parameter *)

Lemma length_append (a b : string) :
  String.length (a +:+ b) = (String.length a + String.length b)%nat.
Proof.
  induction a as [|ch a IH]; [reflexivity|].
  rewrite append_cons. cbn [String.length]. by rewrite IH.
Qed.

Lemma append_inj_length (a a' b b' : string) :
  String.length a = String.length a' → a +:+ b = a' +:+ b' → a = a' ∧ b = b'.
Proof.
  revert a'. induction a as [|ch a IH]; intros [|ch' a'] Hlen Heq; try discriminate Hlen.
  - by rewrite !append_empty_l in Heq.
  - rewrite !append_cons in Heq. injection Heq as -> Heq.
    injection Hlen as Hlen. by destruct (IH a' Hlen Heq) as [-> ->].
Qed.

Lemma digits_length (w : nat) (n : Z) : String.length (digits w n) = w.
Proof.
  revert n. induction w as [|w IH]; intros n; [reflexivity|].
  cbn [digits]. rewrite length_append, IH. cbn [String.length]. lia.
Qed.

Lemma fmt_0d_digits (w : nat) (n : Z) : n < 10 ^ Z.of_nat w → fmt_0d w n = digits w n.
Proof.
  intros Hn. unfold fmt_0d.
  destruct (n <? 10 ^ Z.of_nat w) eqn:E; [reflexivity|].
  apply Z.ltb_ge in E. lia.
Qed.

Lemma digit_char_inj (d e : Z) :
  0 ≤ d < 10 → 0 ≤ e < 10 → digit_char d = digit_char e → d = e.
Proof.
  intros Hd He Heq. unfold digit_char in Heq.
  apply (f_equal nat_of_ascii) in Heq.
  rewrite !nat_ascii_embedding in Heq by lia. lia.
Qed.

Lemma digits_inj (w : nat) (n m : Z) :
  0 ≤ n < 10 ^ Z.of_nat w → 0 ≤ m < 10 ^ Z.of_nat w →
  digits w n = digits w m → n = m.
Proof.
  revert n m. induction w as [|w IH]; intros n m Hn Hm Heq.
  - change (10 ^ Z.of_nat 0) with 1 in Hn, Hm. lia.
  - rewrite Nat2Z.inj_succ, Z.pow_succ_r in Hn, Hm by lia.
    cbn [digits] in Heq.
    apply append_inj_length in Heq as [Hhigh Hlow]; [|by rewrite !digits_length].
    injection Hlow as Hlow.
    apply digit_char_inj in Hlow; [|by apply Z.mod_pos_bound..].
    apply IH in Hhigh.
    + rewrite (Z.div_mod n 10), (Z.div_mod m 10) by lia. by rewrite Hhigh, Hlow.
    + split; [apply Z.div_pos; lia | apply Z.div_lt_upper_bound; lia].
    + split; [apply Z.div_pos; lia | apply Z.div_lt_upper_bound; lia].
Qed.

Lemma valid_datetime_bounds (dt : datetime) :
  valid_datetime dt = true →
  1 ≤ year dt ≤ 9999 ∧ 1 ≤ month dt ≤ 12 ∧ 1 ≤ day dt ≤ 31
  ∧ 0 ≤ hour dt < 24 ∧ 0 ≤ minute dt < 60 ∧ 0 ≤ second dt < 60
  ∧ 0 ≤ microsecond dt < 1000000
  ∧ match utcoffset dt with
    | None => True
    | Some off => -86400000000 < off < 86400000000
    end.
Proof.
  intros Hvalid. unfold valid_datetime in Hvalid.
  repeat (apply andb_prop in Hvalid as [Hvalid ?]).
  assert (match utcoffset dt with
          | None => True
          | Some off => -86400000000 < off < 86400000000
          end) as Hoff.
  { destruct (utcoffset dt) as [off|]; [|exact I].
    match goal with
    | H : (_ && _)%bool = true |- _ => apply andb_prop in H as [Hlo Hhi]
    end.
    apply Z.ltb_lt in Hlo, Hhi. lia. }
  repeat match goal with
         | H : (_ <=? _) = true |- _ => apply Z.leb_le in H
         | H : (_ <? _) = true |- _ => apply Z.ltb_lt in H
         end.
  assert (day dt ≤ 31).
  { unfold days_in_month in *. repeat case_match; lia. }
  repeat split; first [lia | exact Hoff].
Qed.

(** For a valid datetime the date and the time to the second are the
    two-digit and four-digit fields of the ISO form. *)
Lemma _format_datetime_digits (dt : datetime) :
  valid_datetime dt = true →
  _format_datetime dt
  = dq +:+ digits 4 (year dt) +:+ "-" +:+ digits 2 (month dt) +:+ "-"
    +:+ digits 2 (day dt) +:+ " " +:+ digits 2 (hour dt) +:+ ":"
    +:+ digits 2 (minute dt) +:+ ":" +:+ digits 2 (second dt)
    +:+ (if microsecond dt =? 0 then "" else "." +:+ digits 6 (microsecond dt))
    +:+ _format_offset (utcoffset dt) +:+ dq.
Proof.
  intros Hvalid. apply valid_datetime_bounds in Hvalid.
  destruct Hvalid as (Hy & Hmo & Hd & Hh & Hmi & Hs & Hus & _).
  unfold _format_datetime, isoformat, _format_time.
  rewrite !fmt_0d_digits by (cbn; lia).
  rewrite !append_assoc. reflexivity.
Qed.

(** X16: for every valid naive datetime, [_format_datetime] gives 21
    characters, the date and the time to the second in double quotes, when the
    microsecond is zero, and 28 characters, with the six digits of the
    microsecond after a dot, when it is not. *)
Theorem format_datetime_naive_shape (dt : datetime) :
  valid_datetime dt = true → utcoffset dt = None →
  if microsecond dt =? 0
  then quoted_datetime_form_seconds (_format_datetime dt) = true
       ∧ String.length (_format_datetime dt) = 21%nat
  else quoted_datetime_form (_format_datetime dt) = true
       ∧ String.length (_format_datetime dt) = 28%nat.
Proof.
  intros Hvalid Hnaive.
  destruct (_format_datetime_naive_form dt Hvalid Hnaive) as [Hfull Hsec].
  destruct (microsecond dt =? 0).
  - split; [exact Hsec|]. apply matches_length in Hsec. by rewrite <- Hsec.
  - split; [exact Hfull|]. apply matches_length in Hfull. by rewrite <- Hfull.
Qed.

(** The last microsecond of 2021. *)
Lemma format_datetime_naive_shape_witness :
  quoted_datetime_form (_format_datetime (mkDatetime 2021 12 31 23 59 59 999999 None))
  = true
  ∧ String.length (_format_datetime (mkDatetime 2021 12 31 23 59 59 999999 None))
    = 28%nat.
Proof.
  exact (format_datetime_naive_shape (mkDatetime 2021 12 31 23 59 59 999999 None)
           eq_refl eq_refl).
Defined.

Lemma _format_offset_length (off : Z) :
  -86400000000 < off < 86400000000 →
  String.length (_format_offset (Some off)) = 6%nat
  ∨ String.length (_format_offset (Some off)) = 9%nat
  ∨ String.length (_format_offset (Some off)) = 16%nat.
Proof.
  intros Hoff. unfold _format_offset. cbn zeta.
  assert (0 ≤ Z.abs off < 86400000000) as Habs by lia.
  assert (0 ≤ Z.abs off / 3600000000 < 100) as Hhh.
  { split; [apply Z.div_pos; lia | apply Z.div_lt_upper_bound; lia]. }
  pose proof (Z.mod_pos_bound (Z.abs off) 3600000000 eq_refl) as Hrem.
  assert (0 ≤ Z.abs off mod 3600000000 / 60000000 < 100) as Hmm.
  { split; [apply Z.div_pos; lia | apply Z.div_lt_upper_bound; lia]. }
  pose proof (Z.mod_pos_bound (Z.abs off mod 3600000000) 60000000 eq_refl) as Hss.
  assert (0 ≤ (Z.abs off mod 3600000000) mod 60000000 / 1000000 < 100) as Hsec.
  { split; [apply Z.div_pos; lia | apply Z.div_lt_upper_bound; lia]. }
  pose proof (Z.mod_pos_bound ((Z.abs off mod 3600000000) mod 60000000) 1000000 eq_refl)
    as Hus.
  rewrite !fmt_0d_digits by (cbn; lia).
  assert (String.length (if off <? 0 then "-" else "+") = 1%nat) as Hsign
    by (by destruct (off <? 0)).
  repeat case_match; rewrite !length_append, ?digits_length, Hsign; cbn [String.length];
    lia.
Qed.

(** X17: for every valid timezone-aware datetime, [_format_datetime] sets
    the UTC offset (a sign, hours, a colon, minutes, and seconds when the
    offset has some) between the time and the closing double quote: the result
    has at least 27 characters and has neither the form with the six
    fractional digits nor the form to the second. *)
Theorem format_datetime_aware_offset (dt : datetime) (off : Z) :
  valid_datetime dt = true → utcoffset dt = Some off →
  (6 ≤ String.length (_format_offset (Some off)))%nat
  ∧ String.length (_format_datetime dt)
    = ((if (microsecond dt =? 0)%Z then 21 else 28)
       + String.length (_format_offset (Some off)))%nat
  ∧ quoted_datetime_form (_format_datetime dt) = false
  ∧ quoted_datetime_form_seconds (_format_datetime dt) = false.
Proof.
  intros Hvalid Haware.
  pose proof (valid_datetime_bounds dt Hvalid) as Hb.
  destruct Hb as (_ & _ & _ & _ & _ & _ & _ & Hoff). rewrite Haware in Hoff.
  pose proof (_format_offset_length off Hoff) as Hlen.
  assert (String.length (_format_datetime dt)
          = ((if (microsecond dt =? 0)%Z then 21 else 28)
             + String.length (_format_offset (Some off)))%nat) as Htotal.
  { rewrite (_format_datetime_digits dt Hvalid), Haware.
    destruct (microsecond dt =? 0);
      rewrite !length_append, !digits_length; change (String.length dq) with 1%nat;
      cbn [String.length]; lia. }
  split; [lia|]. split; [exact Htotal|]. split.
  - unfold quoted_datetime_form.
    destruct (matches _ (_format_datetime dt)) eqn:Hm; [|reflexivity].
    apply matches_length in Hm. cbn [String.length] in Hm.
    destruct (microsecond dt =? 0); lia.
  - unfold quoted_datetime_form_seconds.
    destruct (matches _ (_format_datetime dt)) eqn:Hm; [|reflexivity].
    apply matches_length in Hm. cbn [String.length] in Hm.
    destruct (microsecond dt =? 0); lia.
Qed.

(** Noon of 1 March 2021 at one hour east of UTC. *)
Lemma format_datetime_aware_offset_witness :
  let dt := mkDatetime 2021 3 1 12 0 0 0 (Some 3600000000) in
  _format_datetime dt = dq +:+ "2021-03-01 12:00:00+01:00" +:+ dq
  ∧ quoted_datetime_form_seconds (_format_datetime dt) = false.
Proof.
  intros dt. split; [vm_compute; reflexivity|].
  exact (proj2 (proj2 (proj2
           (format_datetime_aware_offset dt 3600000000 eq_refl eq_refl)))).
Defined.

(** X18: on valid naive datetimes [_format_datetime] loses nothing: two
    different datetimes are never formatted to the same string. *)
Theorem format_datetime_injective_naive (dt1 dt2 : datetime) :
  valid_datetime dt1 = true → valid_datetime dt2 = true →
  utcoffset dt1 = None → utcoffset dt2 = None →
  _format_datetime dt1 = _format_datetime dt2 →
  dt1 = dt2.
Proof.
  intros Hv1 Hv2 Hn1 Hn2 Heq.
  rewrite (_format_datetime_digits dt1 Hv1), (_format_datetime_digits dt2 Hv2) in Heq.
  rewrite Hn1, Hn2 in Heq. cbn [_format_offset] in Heq. rewrite !append_empty_l in Heq.
  apply valid_datetime_bounds in Hv1, Hv2.
  destruct Hv1 as (Hy1 & Hmo1 & Hd1 & Hh1 & Hmi1 & Hs1 & Hus1 & _).
  destruct Hv2 as (Hy2 & Hmo2 & Hd2 & Hh2 & Hmi2 & Hs2 & Hus2 & _).
  apply append_inj_length in Heq as [_ Heq]; [|reflexivity].
  apply append_inj_length in Heq as [Hy Heq]; [|by rewrite !digits_length].
  apply append_inj_length in Heq as [_ Heq]; [|reflexivity].
  apply append_inj_length in Heq as [Hmo Heq]; [|by rewrite !digits_length].
  apply append_inj_length in Heq as [_ Heq]; [|reflexivity].
  apply append_inj_length in Heq as [Hd Heq]; [|by rewrite !digits_length].
  apply append_inj_length in Heq as [_ Heq]; [|reflexivity].
  apply append_inj_length in Heq as [Hh Heq]; [|by rewrite !digits_length].
  apply append_inj_length in Heq as [_ Heq]; [|reflexivity].
  apply append_inj_length in Heq as [Hmi Heq]; [|by rewrite !digits_length].
  apply append_inj_length in Heq as [_ Heq]; [|reflexivity].
  apply append_inj_length in Heq as [Hs Heq]; [|by rewrite !digits_length].
  apply digits_inj in Hy, Hmo, Hd, Hh, Hmi, Hs; try (cbn; lia).
  assert (microsecond dt1 = microsecond dt2) as Hus.
  { destruct (microsecond dt1 =? 0) eqn:E1, (microsecond dt2 =? 0) eqn:E2.
    - apply Z.eqb_eq in E1, E2. congruence.
    - apply (f_equal String.length) in Heq.
      rewrite !length_append, digits_length in Heq. discriminate Heq.
    - apply (f_equal String.length) in Heq.
      rewrite !length_append, digits_length in Heq. discriminate Heq.
    - apply append_inj_length in Heq as [Heq _];
        [|by rewrite !length_append, !digits_length].
      apply append_inj_length in Heq as [_ Heq]; [|reflexivity].
      apply digits_inj in Heq; [exact Heq | cbn; lia..]. }
  destruct dt1, dt2. cbn in *. congruence.
Qed.

(** Two datetimes one microsecond apart. *)
Lemma format_datetime_injective_naive_witness :
  _format_datetime (mkDatetime 2021 1 1 0 0 0 1 None)
  ≠ _format_datetime (mkDatetime 2021 1 1 0 0 0 2 None).
Proof.
  intros Heq.
  apply format_datetime_injective_naive in Heq; [discriminate Heq | reflexivity..].
Defined.
